(** * BHR file-based router: route compilation, scoring, middleware scoping

    A shallow embedding of the routing core of the repository
    ([src/lib/route-utils.ts] and [src/lib/file-router.ts]) together with
    the statements that relate it to its natural-language specification.

    Conventions of the embedding:
    - a JavaScript string is a [string] (one [ascii] per code unit; the
      route syntax is ASCII);
    - a JavaScript number that counts things is a [Z];
    - a [Map] is an association list in insertion order, because the code
      iterates maps and the iteration order is observable;
    - [String.prototype.replace] with a regular expression is a scan of the
      subject that asks, at each position, a matcher written for that one
      expression;
    - handlers and middleware are opaque values of a type parameter. *)

From Stdlib Require Import String Ascii List ZArith Lia Bool Arith.
From Stdlib Require Import Permutation Sorted.
Import ListNotations.

Open Scope string_scope.

(* ================================================================== *)
(** * JavaScript string primitives used by the router *)
(* ================================================================== *)

Module Js.

(** [s.startsWith(p)] *)
Definition startsWith (s p : string) : bool := String.prefix p s.

(** [s.endsWith(p)]: some suffix of [s] is [p]. *)
Fixpoint endsWith (s p : string) : bool :=
  String.eqb s p ||
  match s with
  | EmptyString => false
  | String _ s' => endsWith s' p
  end.

(** [s.includes(p)]: [p] starts at some position of [s]. *)
Fixpoint includes (s p : string) : bool :=
  String.prefix p s ||
  match s with
  | EmptyString => false
  | String _ s' => includes s' p
  end.

(** [s.slice(n)] for [0 <= n]. *)
Fixpoint drop (n : nat) (s : string) : string :=
  match n, s with
  | O, _ => s
  | S _, EmptyString => EmptyString
  | S k, String _ s' => drop k s'
  end.

(** [s.slice(1, -1)]: without its first and its last code unit, empty
    when [s] has fewer than two. *)
Definition slice_1_m1 (s : string) : string :=
  String.substring 1 (String.length s - 2) s.

(** [s.split(sep)] for a one-character separator: always at least one
    part, [k] separators give [k + 1] parts. *)
Fixpoint split (sep : ascii) (s : string) : list string :=
  match s with
  | EmptyString => [EmptyString]
  | String c s' =>
      if Ascii.eqb c sep then EmptyString :: split sep s'
      else match split sep s' with
           | h :: t => String c h :: t
           | [] => [String c EmptyString]
           end
  end.

(** [Boolean(s)] on a string: the empty string is falsy. *)
Definition truthy (s : string) : bool :=
  match s with EmptyString => false | _ => true end.

(** [parts.join(sep)] *)
Definition join (sep : string) (parts : list string) : string :=
  String.concat sep parts.

(** Longest prefix whose code units satisfy [ok], and the rest. *)
Fixpoint span (ok : ascii -> bool) (s : string) : string * string :=
  match s with
  | EmptyString => (EmptyString, EmptyString)
  | String c s' =>
      if ok c then let (run, rest) := span ok s' in (String c run, rest)
      else (EmptyString, s)
  end.

(** Number of code units satisfying [ok]: the length of
    [s.match(/[...]/g) || []] for a one-character class. *)
Fixpoint countChars (ok : ascii -> bool) (s : string) : nat :=
  match s with
  | EmptyString => O
  | String c s' => (if ok c then 1 else 0) + countChars ok s'
  end.

(** ** Regular-expression replacement

    A [matcher] answers, for the remainder of the subject starting at the
    position under test, whether the expression matches there; it returns
    the text of its capture group and the number of code units the whole
    match spans.  None of the router's expressions matches the empty
    string. *)
Definition matcher := string -> option (string * nat).

(** [s.replace(re, f)] without the [g] flag: the leftmost match only. *)
Fixpoint replaceFirst (m : matcher) (rep : string -> string) (s : string)
  : string :=
  match m s with
  | Some (capt, n) => rep capt ++ drop n s
  | None =>
      match s with
      | EmptyString => EmptyString
      | String c s' => String c (replaceFirst m rep s')
      end
  end.

(** [s.replace(re, f)] with the [g] flag: every match, left to right,
    the scan resuming after each match.  [skip] counts the code units of
    the current match still to be passed over. *)
Fixpoint replaceAllFrom (m : matcher) (rep : string -> string)
         (skip : nat) (s : string) : string :=
  match s with
  | EmptyString => EmptyString
  | String c s' =>
      match skip with
      | S k => replaceAllFrom m rep k s'
      | O =>
          match m s with
          | Some (capt, S n) => rep capt ++ replaceAllFrom m rep n s'
          | _ => String c (replaceAllFrom m rep 0 s')
          end
      end
  end.

Definition replaceAll (m : matcher) (rep : string -> string) (s : string)
  : string := replaceAllFrom m rep 0 s.

(** The capture groups seen by the callback of a global replace, in the
    order the callback is invoked. *)
Fixpoint capturesFrom (m : matcher) (skip : nat) (s : string)
  : list string :=
  match s with
  | EmptyString => []
  | String c s' =>
      match skip with
      | S k => capturesFrom m k s'
      | O =>
          match m s with
          | Some (capt, S n) => capt :: capturesFrom m n s'
          | _ => capturesFrom m 0 s'
          end
      end
  end.

Definition captures (m : matcher) (s : string) : list string :=
  capturesFrom m 0 s.

(** *** The expressions of the router *)

Definition isNot (c : ascii) (d : ascii) : bool := negb (Ascii.eqb c d).

(** [/\\/g] *)
Definition re_backslash : matcher := fun s =>
  match s with
  | String "\" _ => Some (EmptyString, 1)
  | _ => None
  end.

(** [/\//g] *)
Definition re_slash : matcher := fun s =>
  match s with
  | String "/" _ => Some (EmptyString, 1)
  | _ => None
  end.

(** An expression [lit$]: the remainder is exactly [lit]. *)
Definition re_end (lit : string) : matcher := fun s =>
  if String.eqb s lit then Some (EmptyString, String.length lit) else None.

(** An expression [(l1|l2|...)$] with a common prefix folded into each
    alternative: the first alternative equal to the remainder. *)
Fixpoint re_end_any (lits : list string) : matcher := fun s =>
  match lits with
  | [] => None
  | lit :: lits' =>
      match re_end lit s with
      | Some r => Some r
      | None => re_end_any lits' s
      end
  end.

(** [/\.(ts|tsx|js|jsx)$/] *)
Definition re_extension : matcher :=
  re_end_any [".ts"; ".tsx"; ".js"; ".jsx"].

(** [/\/(page|route|layout)$/] *)
Definition re_role_suffix : matcher :=
  re_end_any ["/page"; "/route"; "/layout"].

(** An expression [opening ([^closing]+) closing], where [opening] is a
    literal and [closing] one character: after [opening], the longest run
    free of [closing], which must be non-empty and followed by [closing]. *)
Definition re_delimited (opening : string) (closing : ascii) : matcher :=
  fun s =>
  if String.prefix opening s then
    let (run, rest) :=
      span (isNot closing) (drop (String.length opening) s) in
    match run, rest with
    | String _ _, String _ _ =>
        Some (run, String.length opening + String.length run + 1)
    | _, _ => None
    end
  else None.

(** [/\[([^\]]+)\]/g] *)
Definition re_bracket : matcher := re_delimited "[" "]".

(** [/\[\.\.\.([^\]]+)\]/g] *)
Definition re_bracket_dots : matcher := re_delimited "[..." "]".

(** [/\/\([^)]+\)/g] (its group is not a capture; the run is returned
    all the same and ignored by the caller). *)
Definition re_group : matcher := re_delimited "/(" ")".

(** [/:([^\/]+)/g] *)
Definition re_colon : matcher := fun s =>
  match s with
  | String ":" s' =>
      match span (isNot "/") s' with
      | (String c run, _) =>
          Some (String c run, 1 + String.length (String c run))
      | _ => None
      end
  | _ => None
  end.

(** The expression: a star, then a capture group of any number of
    characters other than the slash; global. *)
Definition re_star : matcher := fun s =>
  match s with
  | String "*" s' =>
      let (run, _) := span (isNot "/") s' in
      Some (run, 1 + String.length run)
  | _ => None
  end.

(** [s.lastIndexOf(c)] for a one-character needle: the position of the
    last [c], or -1 when there is none. *)
Fixpoint lastIndex (c : ascii) (s : string) : option nat :=
  match s with
  | EmptyString => None
  | String d s' =>
      match lastIndex c s' with
      | Some i => Some (S i)
      | None => if Ascii.eqb d c then Some 0 else None
      end
  end.

Definition lastIndexOf (c : ascii) (s : string) : Z :=
  match lastIndex c s with
  | Some i => Z.of_nat i
  | None => (-1)%Z
  end.

(** An index argument of [substring]: below 0 it counts as 0, above the
    length as the length. *)
Definition clampIndex (i : Z) (s : string) : nat :=
  Nat.min (Z.to_nat i) (String.length s).

(** [s.substring(a)] *)
Definition substring1 (a : Z) (s : string) : string :=
  drop (clampIndex a s) s.

(** [s.substring(a, b)]: the two indices are swapped when out of
    order. *)
Definition substring2 (a b : Z) (s : string) : string :=
  let i := clampIndex a s in
  let j := clampIndex b s in
  String.substring (Nat.min i j) (Nat.max i j - Nat.min i j) s.

(** [s.toUpperCase()] on the letters a to z. *)
Definition upper (c : ascii) : ascii :=
  let n := nat_of_ascii c in
  if Nat.leb 97 n && Nat.leb n 122 then ascii_of_nat (n - 32) else c.

Fixpoint toUpperCase (s : string) : string :=
  match s with
  | EmptyString => EmptyString
  | String c s' => String (upper c) (toUpperCase s')
  end.

End Js.

(* ================================================================== *)
(** * Insertion-ordered maps with string keys ([Map<string, V>]) *)
(* ================================================================== *)

Module JsMap.

Section Ops.
Context {V : Type}.

Definition t := list (string * V).

(** [m.get(k)] *)
Fixpoint get (m : t) (k : string) : option V :=
  match m with
  | [] => None
  | (k', v) :: m' => if String.eqb k' k then Some v else get m' k
  end.

(** [m.set(k, v)]: an existing key keeps its place in the iteration
    order and takes the new value; a new key goes last. *)
Fixpoint set (m : t) (k : string) (v : V) : t :=
  match m with
  | [] => [(k, v)]
  | (k', v') :: m' =>
      if String.eqb k' k then (k', v) :: m' else (k', v') :: set m' k v
  end.

(** [Array.from(m.values())] *)
Definition values (m : t) : list V := map snd m.

(** [Array.from(m.keys())] *)
Definition keys (m : t) : list string := map fst m.

End Ops.

Arguments t : clear implicits.

End JsMap.

(* ================================================================== *)
(** * route-utils.ts *)
(* ================================================================== *)

Module RouteUtils.

Inductive SegmentType := static | dynamic | wildcard | group.

(** [interface RouteSegment]; the optional [param] is absent on static
    and group segments. *)
Record RouteSegment := mkSegment {
  type : SegmentType;
  value : string;
  param : option string
}.

Record ParsedRoute := mkParsed {
  segments : list RouteSegment;
  params : list string;
  isDynamic : bool;
  isWildcard : bool
}.

(** The body of the [for (const segment of pathSegments)] loop of
    [parseFilePath], as a step on the four variables the loop updates. *)
Definition parseSegment (acc : ParsedRoute) (segment : string) : ParsedRoute :=
  if Js.startsWith segment "(" && Js.endsWith segment ")" then
    mkParsed (segments acc ++ [mkSegment group (Js.slice_1_m1 segment) None])
             (params acc) (isDynamic acc) (isWildcard acc)
  else if Js.startsWith segment "[" && Js.endsWith segment "]" then
    let paramContent := Js.slice_1_m1 segment in
    if Js.startsWith paramContent "..." then
      let p := Js.drop 3 paramContent in
      mkParsed (segments acc ++ [mkSegment wildcard segment (Some p)])
               (params acc ++ [p]) true true
    else
      mkParsed (segments acc ++ [mkSegment dynamic segment (Some paramContent)])
               (params acc ++ [paramContent]) true (isWildcard acc)
  else
    mkParsed (segments acc ++ [mkSegment static segment None])
             (params acc) (isDynamic acc) (isWildcard acc).

Definition cleanPath (filePath : string) : string :=
  Js.replaceFirst Js.re_role_suffix (fun _ => "")
    (Js.replaceFirst Js.re_extension (fun _ => "")
       (Js.replaceAll Js.re_backslash (fun _ => "/") filePath)).

(** [parseFilePath].  The source has no [throw] and calls string and
    array methods on strings and arrays only, so it returns on every
    input. *)
Definition parseFilePath (filePath : string) : ParsedRoute :=
  let pathSegments := filter Js.truthy (Js.split "/" (cleanPath filePath)) in
  fold_left parseSegment pathSegments (mkParsed [] [] false false).

(** The template literal [`:${segment.param}`]; an absent [param] would
    print as [undefined]. *)
Definition paramText (p : option string) : string :=
  match p with Some s => s | None => "undefined" end.

(** The [switch] inside the [map] callback of [filePathToRoute]. *)
Definition renderSegment (segment : RouteSegment) : string :=
  match type segment with
  | dynamic => ":" ++ paramText (param segment)
  | wildcard => "*" ++ paramText (param segment)
  | _ => value segment
  end.

Definition notGroup (segment : RouteSegment) : bool :=
  match type segment with group => false | _ => true end.

Definition filePathToRoute (filePath : string) : string :=
  let parsed := parseFilePath filePath in
  let routeSegments := map renderSegment (filter notGroup (segments parsed)) in
  let route := "/" ++ Js.join "/" routeSegments in
  if String.eqb route "/" then "/"
  else Js.replaceFirst (Js.re_end "/") (fun _ => "") route.

Definition calculateRoutePriority (route : string) : Z :=
  let priority := 1000%Z in
  let segments := filter Js.truthy (Js.split "/" route) in
  let priority := (priority + Z.of_nat (List.length segments) * 10)%Z in
  let dynamicParams := Js.countChars (Ascii.eqb ":") route in
  let priority := (priority - Z.of_nat dynamicParams * 100)%Z in
  let wildcards := Js.countChars (Ascii.eqb "*") route in
  (priority - Z.of_nat wildcards * 200)%Z.

(** ** [class RouteMatcher]

    [addRoute] builds the source text of a regular expression and hands
    it to [new RegExp].  The expressions it builds from route patterns
    consist of literal characters, the escaped slash, and the two capture
    groups it inserts; [compileRegExp] reads exactly that fragment and
    answers [None] on any other syntax. *)

Inductive piece :=
| Lit (c : ascii)
| GroupSegment      (* the group that takes one or more non-slash characters *)
| GroupRest.        (* the group that takes any run of characters *)

Definition segmentGroupText : string := "([^/]+)".
Definition restGroupText : string := "(.*)".

Definition isSyntaxChar (c : ascii) : bool :=
  existsb (Ascii.eqb c)
    ["\"; "^"; "$"; "."; "|"; "?"; "*"; "+"; "("; ")"; "["; "]"; "{"; "}"]%char.

(** The body of an anchored expression, up to and including the final
    [$]. *)
Fixpoint compileBody (skip : nat) (s : string) : option (list piece) :=
  match s with
  | EmptyString => None
  | String c s' =>
      match skip with
      | S k => compileBody k s'
      | O =>
          if String.eqb s "$" then Some []
          else if String.prefix "\/" s then
            option_map (cons (Lit "/")) (compileBody 1 s')
          else if String.prefix segmentGroupText s then
            option_map (cons GroupSegment) (compileBody 6 s')
          else if String.prefix restGroupText s then
            option_map (cons GroupRest) (compileBody 3 s')
          else if isSyntaxChar c then None
          else option_map (cons (Lit c)) (compileBody 0 s')
      end
  end.

(** [new RegExp(src)] for [src] of the form [^...$]. *)
Definition compileRegExp (src : string) : option (list piece) :=
  match src with
  | String "^" body => compileBody 0 body
  | _ => None
  end.

(** A greedy quantifier over the class [ok] followed by the rest of the
    expression [k]: the longest run is tried first, and one character is
    given back at a time while the rest fails. *)
Fixpoint greedy (ok : ascii -> bool) (k : string -> option (list string))
         (taken : string) (s : string) : option (list string) :=
  let stop := option_map (cons taken) (k s) in
  match s with
  | EmptyString => stop
  | String c s' =>
      if ok c then
        match greedy ok k (taken ++ String c EmptyString) s' with
        | Some r => Some r
        | None => stop
        end
      else stop
  end.

(** The dot matches every character but a line terminator. *)
Definition dot (c : ascii) : bool :=
  negb (Ascii.eqb c "010" || Ascii.eqb c "013").

(** Matching the whole subject; the result lists the capture groups. *)
Fixpoint matchPieces (ps : list piece) : string -> option (list string) :=
  match ps with
  | [] => fun s => match s with EmptyString => Some [] | _ => None end
  | Lit c :: ps' => fun s =>
      match s with
      | String d s' => if Ascii.eqb c d then matchPieces ps' s' else None
      | EmptyString => None
      end
  | GroupSegment :: ps' => fun s =>
      match s with
      | String d s' =>
          if Js.isNot "/" d
          then greedy (Js.isNot "/") (matchPieces ps') (String d EmptyString) s'
          else None
      | EmptyString => None
      end
  | GroupRest :: ps' => fun s => greedy dot (matchPieces ps') EmptyString s
  end.

(** A value of [RouteParams]: [string | string[]]; a capture group index
    past the end of the match array reads [undefined]. *)
Inductive ParamValue :=
| PString (s : string)
| PList (l : list string)
| PUndefined.

Definition RouteParams := JsMap.t ParamValue.

Record CompiledEntry := mkEntry {
  pattern : string;           (* source text of the RegExp *)
  entryParams : list string
}.

(** The private field [routes]. *)
Definition RouteMatcher := JsMap.t CompiledEntry.

Definition emptyMatcher : RouteMatcher := [].

Definition addRoute (this : RouteMatcher) (path : string) : RouteMatcher :=
  let escaped := Js.replaceAll Js.re_slash (fun _ => "\/") path in
  let afterColon := Js.replaceAll Js.re_colon (fun _ => segmentGroupText) escaped in
  let pattern := Js.replaceAll Js.re_star (fun _ => restGroupText) afterColon in
  let params :=
    (Js.captures Js.re_colon escaped
     ++ filter Js.truthy (Js.captures Js.re_star afterColon))%list in
  JsMap.set this path (mkEntry ("^" ++ pattern ++ "$") params).

Inductive MatchResult :=
| Null                                          (* [return null] *)
| Matched (route : string) (params : RouteParams)
| TypeError                                     (* [undefined.split] *)
| OutsideFragment.                              (* RegExp not in the fragment *)

(** The inner [for] loop of [match], from index [i] on. *)
Fixpoint bindParams (routePath : string) (groups : list string)
         (i : nat) (params : list string) (routeParams : RouteParams)
  : option RouteParams :=
  match params with
  | [] => Some routeParams
  | param :: rest =>
      let value := nth_error groups i in
      if Js.includes routePath ("*" ++ param) then
        match value with
        | Some v =>
            bindParams routePath groups (S i) rest
              (JsMap.set routeParams param
                 (PList (filter Js.truthy (Js.split "/" v))))
        | None => None
        end
      else
        bindParams routePath groups (S i) rest
          (JsMap.set routeParams param
             (match value with Some v => PString v | None => PUndefined end))
  end.

(** [match]: the entries in insertion order, the first whose expression
    matches decides. *)
Fixpoint matchRoute (this : RouteMatcher) (path : string) : MatchResult :=
  match this with
  | [] => Null
  | (routePath, entry) :: rest =>
      match compileRegExp (pattern entry) with
      | None => OutsideFragment
      | Some ps =>
          match matchPieces ps path with
          | Some groups =>
              match bindParams routePath groups 0 (entryParams entry) [] with
              | Some routeParams => Matched routePath routeParams
              | None => TypeError
              end
          | None => matchRoute rest path
          end
      end
  end.

(** The entries of [FILE_CONVENTIONS], in the order of the object
    literal. *)
Definition FILE_CONVENTIONS : list (string * string) :=
  [("PAGE", "page"); ("ROUTE", "route"); ("LAYOUT", "layout");
   ("LOADING", "loading"); ("ERROR", "error"); ("NOT_FOUND", "not-found");
   ("MIDDLEWARE", "_middleware"); ("GLOBAL_ERROR", "global-error")].

(** The test of the loop of [getFileType]. *)
Definition isConvention (baseName : string) (entry : string * string) : bool :=
  String.eqb baseName (snd entry) || Js.endsWith baseName ("/" ++ snd entry).

(** [getFileType]: the key of the first convention the base name is, or
    ends with after a separator; [None] is [null]. *)
Definition getFileType (fileName : string) : option string :=
  let baseName := Js.replaceFirst Js.re_extension (fun _ => "") fileName in
  option_map fst (find (isConvention baseName) FILE_CONVENTIONS).

End RouteUtils.

(* ================================================================== *)
(** * file-router.ts *)
(* ================================================================== *)

Module FileRouter.

Definition convertFilePathToRoute (relativePath : string) : string :=
  let route :=
    Js.replaceAll Js.re_bracket_dots (fun p => "*" ++ p)
      (Js.replaceAll Js.re_bracket (fun p => ":" ++ p)
        (Js.replaceFirst (Js.re_end "/index") (fun _ => "")
          (Js.replaceFirst (Js.re_end "/route") (fun _ => "")
            (Js.replaceFirst (Js.re_end "/page") (fun _ => "")
              (Js.replaceFirst Js.re_extension (fun _ => "")
                (Js.replaceAll Js.re_backslash (fun _ => "/")
                   relativePath)))))) in
  let route := Js.replaceAll Js.re_group (fun _ => "") route in
  if String.eqb route "page" || String.eqb route "/page" then "/"
  else
    let route := if Js.startsWith route "/" then route else "/" ++ route in
    if String.eqb route "/" then "/"
    else Js.replaceFirst (Js.re_end "/") (fun _ => "") route.

Definition extractParams (routePath : string) : list string :=
  Js.captures Js.re_colon routePath.

Definition isDynamicRoute (routePath : string) : bool :=
  Js.includes routePath ":" || Js.includes routePath "*".

Definition isMarker (c : ascii) : bool :=
  Ascii.eqb c ":" || Ascii.eqb c "*".

Definition calculatePriority (routePath : string) : Z :=
  let priority := 1000%Z in
  let dynamicSegments := Js.countChars isMarker routePath in
  let priority := (priority - Z.of_nat dynamicSegments * 100)%Z in
  let segments := List.length (Js.split "/" routePath) in
  (priority + Z.of_nat segments * 10)%Z.

Section Router.

(** Handlers and middleware functions are opaque to the router. *)
Variables Handler Middleware : Type.

Record RouteInfo := mkRoute {
  path : string;
  filePath : string;
  method : string;
  handler : Handler;
  middleware : list Middleware;
  params : list string;
  isDynamic : bool;
  priority : Z
}.

(** The two private maps of [BHRFileRouter] the routing table is built
    from. *)
Record Router := mkRouter {
  routes : JsMap.t RouteInfo;
  middlewareMap : JsMap.t (list Middleware)
}.

Definition newRouter : Router := mkRouter [] [].

(** The body of the loop of [getMiddlewareForPath] over
    [this.middleware.entries()]: the whole list of the entry is pushed
    when the route path starts with the entry's key. *)
Definition scopeStep (routePath : string)
           (acc : list Middleware) (entry : string * list Middleware)
  : list Middleware :=
  if Js.startsWith routePath (fst entry) then (acc ++ snd entry)%list else acc.

Definition getMiddlewareForPath (this : Router) (routePath : string)
  : list Middleware :=
  fold_left (scopeStep routePath) (middlewareMap this) [].

(** [processMiddleware], after the module is loaded: [dflt] is
    [module.default]. *)
Definition processMiddleware (this : Router) (relativePath : string)
           (dflt : option Middleware) : Router :=
  let middlewarePath := convertFilePathToRoute relativePath in
  match dflt with
  | Some mw =>
      let existingMiddleware :=
        match JsMap.get (middlewareMap this) middlewarePath with
        | Some l => l
        | None => []
        end in
      mkRouter (routes this)
               (JsMap.set (middlewareMap this) middlewarePath
                          (existingMiddleware ++ [mw])%list)
  | None => this
  end.

Definition methods : list string := ["GET"; "POST"; "PUT"; "DELETE"; "PATCH"].

(** The body of the loop over [methods] in [processApiRoute]. *)
Definition registerMethod (file routePath : string)
           (module : string -> option Handler)
           (this : Router) (m : string) : Router :=
  match module m with
  | Some h =>
      let routeInfo :=
        mkRoute routePath file m h
                (getMiddlewareForPath this routePath)
                (extractParams routePath)
                (isDynamicRoute routePath)
                (calculatePriority routePath) in
      let key := m ++ ":" ++ routePath in
      mkRouter (JsMap.set (routes this) key routeInfo) (middlewareMap this)
  | None => this
  end.

(** [processApiRoute], after the module is loaded: [module] gives the
    export of each name, if any. *)
Definition processApiRoute (this : Router) (file relativePath : string)
           (module : string -> option Handler) : Router :=
  let routePath := convertFilePathToRoute relativePath in
  fold_left (registerMethod file routePath module) methods this.

(** [Array.prototype.sort] with the comparator
    [(a, b) => b.priority - a.priority].  The sort of the language is
    stable; a stable sort by a consistent comparator has one possible
    result, computed here by insertion. *)
Definition comparePriority (a b : RouteInfo) : Z :=
  (priority b - priority a)%Z.

Fixpoint insertRoute (a : RouteInfo) (l : list RouteInfo) : list RouteInfo :=
  match l with
  | [] => [a]
  | b :: l' =>
      if (comparePriority a b <=? 0)%Z then a :: b :: l'
      else b :: insertRoute a l'
  end.

Definition sortRoutes (l : list RouteInfo) : list RouteInfo :=
  fold_right insertRoute [] l.

(** The value of [sortedRoutes] in [scan], which [registerRoutes]
    receives and registers in that order. *)
Definition sortedRoutes (this : Router) : list RouteInfo :=
  sortRoutes (JsMap.values (routes this)).

End Router.

Arguments mkRoute {Handler Middleware}.
Arguments path {Handler Middleware}.
Arguments filePath {Handler Middleware}.
Arguments method {Handler Middleware}.
Arguments handler {Handler Middleware}.
Arguments middleware {Handler Middleware}.
Arguments params {Handler Middleware}.
Arguments isDynamic {Handler Middleware}.
Arguments priority {Handler Middleware}.
Arguments mkRouter {Handler Middleware}.
Arguments routes {Handler Middleware}.
Arguments middlewareMap {Handler Middleware}.
Arguments newRouter {Handler Middleware}.
Arguments scopeStep {Middleware}.
Arguments getMiddlewareForPath {Handler Middleware}.
Arguments processMiddleware {Handler Middleware}.
Arguments registerMethod {Handler Middleware}.
Arguments processApiRoute {Handler Middleware}.
Arguments comparePriority {Handler Middleware}.
Arguments insertRoute {Handler Middleware}.
Arguments sortRoutes {Handler Middleware}.
Arguments sortedRoutes {Handler Middleware}.

(** [getFileExtension]: from the last dot on; the whole path when it has
    no dot, since [substring(-1)] is [substring(0)]. *)
Definition getFileExtension (filePath : string) : string :=
  Js.substring1 (Js.lastIndexOf "." filePath) filePath.

(** [getFileName]; [sep] is [path.sep]. *)
Definition getFileName (sep : ascii) (filePath : string) : string :=
  let baseName :=
    Js.substring1 (Js.lastIndexOf sep filePath + 1)%Z filePath in
  Js.substring2 0 (Js.lastIndexOf "." baseName) baseName.

Section Registration.

(** Handlers, middleware functions and page components are opaque. *)
Variables Handler Middleware Component : Type.

(** The closure [createPageHandler] builds around a page component. *)
Variable createPageHandler : Component -> string -> Handler.

(** [processPageRoute], after the module is loaded: [dflt] is
    [module.default]. *)
Definition processPageRoute (this : Router Handler Middleware)
           (file relativePath : string) (dflt : option Component)
  : Router Handler Middleware :=
  let routePath := convertFilePathToRoute relativePath in
  match dflt with
  | Some page =>
      let routeInfo :=
        mkRoute routePath file "GET"
                (createPageHandler page routePath)
                (getMiddlewareForPath this routePath)
                (extractParams routePath)
                (isDynamicRoute routePath)
                (calculatePriority routePath) in
      let key := "GET:" ++ routePath in
      mkRouter (JsMap.set (routes this) key routeInfo) (middlewareMap this)
  | None => this
  end.

(** A call on the Hono application. *)
Inductive HonoCall :=
| Use (path : string) (mws : list Middleware)
| Get (path : string) (h : Handler)
| Post (path : string) (h : Handler)
| Put (path : string) (h : Handler)
| Delete (path : string) (h : Handler)
| Patch (path : string) (h : Handler).

(** The body of the loop of [registerRoutes]: [app.use] when the route
    has middleware, then the [switch] on the upper-cased method, which
    registers nothing for any other method. *)
Definition registerRoute (route : RouteInfo Handler Middleware)
  : list HonoCall :=
  ((if Nat.ltb 0 (List.length (middleware route))
    then [Use (path route) (middleware route)] else [])
   ++
   (let m := Js.toUpperCase (method route) in
    if String.eqb m "GET" then [Get (path route) (handler route)]
    else if String.eqb m "POST" then [Post (path route) (handler route)]
    else if String.eqb m "PUT" then [Put (path route) (handler route)]
    else if String.eqb m "DELETE" then [Delete (path route) (handler route)]
    else if String.eqb m "PATCH" then [Patch (path route) (handler route)]
    else []))%list.

Definition registerRoutes (routes : list (RouteInfo Handler Middleware))
  : list HonoCall :=
  flat_map registerRoute routes.

(** The routers the file router can hold: the empty one, and what the
    three registration steps make of one. *)
Inductive Built : Router Handler Middleware -> Prop :=
| Built_new : Built newRouter
| Built_api this file relativePath module :
    Built this -> Built (processApiRoute this file relativePath module)
| Built_page this file relativePath dflt :
    Built this -> Built (processPageRoute this file relativePath dflt)
| Built_middleware this relativePath dflt :
    Built this -> Built (processMiddleware this relativePath dflt).

End Registration.

Arguments processPageRoute {Handler Middleware Component}.
Arguments Use {Handler Middleware}.
Arguments Get {Handler Middleware}.
Arguments Post {Handler Middleware}.
Arguments Put {Handler Middleware}.
Arguments Delete {Handler Middleware}.
Arguments Patch {Handler Middleware}.
Arguments registerRoute {Handler Middleware}.
Arguments registerRoutes {Handler Middleware}.
Arguments Built {Handler Middleware Component}.

Section Discovery.

(** Every value the router takes from a module, a handler, a page or
    layout component or a middleware function, is an opaque value. *)
Variable Value : Type.

(** The closure [createPageHandler] builds around a page component. *)
Variable createPageHandler : Value -> string -> Value.

(** A loaded module: the value of each export that is present and
    truthy; [default] is the export of that name. *)
Definition Module := string -> option Value.

(** [import(filePath)]; [None] when the promise rejects. *)
Variable importModule : string -> option Module.

(** [path.sep], [path.join] and [path.relative]. *)
Variable sep : ascii.
Variable join : string -> string -> string.
Variable relative : string -> string -> string.

Record LayoutInfo := mkLayout {
  layoutPath : string;
  layoutFile : string;
  component : Value
}.

Record FileRouterOptions := mkOptions {
  pagesDir : string;
  apiDir : string;
  extensions : list string;
  enableHotReload : bool;
  verbose : bool
}.

(** The private fields of [BHRFileRouter] that discovery updates. *)
Record State := mkState {
  router : Router Value Value;
  layouts : JsMap.t LayoutInfo;
  watchedFiles : list string
}.

Definition newState : State := mkState newRouter [] [].

(** [Set.prototype.add] *)
Definition setAdd (l : list string) (x : string) : list string :=
  if existsb (String.eqb x) l then l else (l ++ [x])%list.

(** [processLayout], after the module is loaded. *)
Definition processLayout (ls : JsMap.t LayoutInfo)
           (file relativePath : string) (module : Module)
  : JsMap.t LayoutInfo :=
  let layoutPath := convertFilePathToRoute relativePath in
  match module "default" with
  | Some c => JsMap.set ls layoutPath (mkLayout layoutPath file c)
  | None => ls
  end.

Inductive RouteKind := api | pages.

Definition getRelativePath (options : FileRouterOptions)
           (file : string) (kind : RouteKind) : string :=
  let baseDir :=
    match kind with api => apiDir options | pages => pagesDir options end in
  relative baseDir file.

(** The [try] of the four [process...] methods: the module is loaded
    first, and a rejected import is logged and changes nothing. *)
Definition withModule (st : State) (file : string) (k : Module -> State)
  : State :=
  match importModule file with
  | Some module => k module
  | None => st
  end.

(** [processFile]: files of other extensions are left alone; the
    [switch] on the file name; the file joins the watched set when hot
    reload is on. *)
Definition processFile (options : FileRouterOptions) (st : State)
           (file : string) (kind : RouteKind) : State :=
  let ext := getFileExtension file in
  if negb (existsb (String.eqb ext) (extensions options)) then st
  else
    let fileName := getFileName sep file in
    let relativePath := getRelativePath options file kind in
    let st' :=
      if String.eqb fileName "route" then
        withModule st file (fun module =>
          mkState (processApiRoute (router st) file relativePath module)
                  (layouts st) (watchedFiles st))
      else if String.eqb fileName "page" then
        withModule st file (fun module =>
          mkState (processPageRoute createPageHandler (router st) file
                                    relativePath (module "default"))
                  (layouts st) (watchedFiles st))
      else if String.eqb fileName "layout" then
        withModule st file (fun module =>
          mkState (router st)
                  (processLayout (layouts st) file relativePath module)
                  (watchedFiles st))
      else if String.eqb fileName "_middleware"
              || String.eqb fileName "middleware" then
        withModule st file (fun module =>
          mkState (processMiddleware (router st) relativePath (module "default"))
                  (layouts st) (watchedFiles st))
      else st in
    if enableHotReload options
    then mkState (router st') (layouts st') (setAdd (watchedFiles st') file)
    else st'.

(** What [readdir(dir, { withFileTypes: true })] finds: the entries of a
    directory, each a file, a directory with what reading it gives in
    turn, or something else; or the error code it rejects with. *)
Inductive Node :=
| FileNode
| OtherNode
| DirNode (listing : Listing)
with Listing :=
| Entries (entries : list (string * Node))
| ReaddirError (code : string).

(** [scanDirectory].  The result carries the state reached and the code
    of the error the call rejects with, if any: an error other than
    [ENOENT] is thrown again by every enclosing call and leaves the loop
    it interrupts; [ENOENT] is swallowed where it occurs. *)
Fixpoint scanDirectory (options : FileRouterOptions) (kind : RouteKind)
         (st : State) (dir : string) (listing : Listing)
  : State * option string :=
  match listing with
  | ReaddirError code =>
      if String.eqb code "ENOENT" then (st, None) else (st, Some code)
  | Entries entries =>
      (fix loop (st : State) (entries : list (string * Node))
         : State * option string :=
         match entries with
         | [] => (st, None)
         | (name, node) :: rest =>
             let fullPath := join dir name in
             match node with
             | DirNode sub =>
                 if negb (Js.startsWith name "_") then
                   match scanDirectory options kind st fullPath sub with
                   | (st', None) => loop st' rest
                   | (st', Some code) => (st', Some code)
                   end
                 else loop st rest
             | FileNode => loop (processFile options st fullPath kind) rest
             | OtherNode => loop st rest
             end
         end) st entries
  end.

(** [scan]: the API directory, then the pages directory, then the sorted
    routes are registered; an error of either directory is thrown again
    before anything is registered. *)
Definition scan (options : FileRouterOptions) (st : State)
           (apiListing pagesListing : Listing)
  : State * list (HonoCall Value Value) * option string :=
  match scanDirectory options api st (apiDir options) apiListing with
  | (st1, Some code) => (st1, [], Some code)
  | (st1, None) =>
      match scanDirectory options pages st1 (pagesDir options) pagesListing with
      | (st2, Some code) => (st2, [], Some code)
      | (st2, None) =>
          (st2, registerRoutes (sortedRoutes (router st2)), None)
      end
  end.

End Discovery.

End FileRouter.

(* ================================================================== *)
(** * The specification's rules, and the predicates of the statements *)
(* ================================================================== *)

Module Spec.

Import RouteUtils.

(** Characters a segment literal or a parameter name cannot contain in a
    canonical pattern: the separator and the two markers. *)
Definition plainChar (c : ascii) : bool :=
  negb (Ascii.eqb "/" c) && negb (Ascii.eqb ":" c) && negb (Ascii.eqb "*" c).

Definition plain (s : string) : bool :=
  Nat.eqb (Js.countChars (fun c => negb (plainChar c)) s) 0.

(** A segment of a canonical pattern: a non-empty plain literal, or a
    dynamic or catch-all segment with a plain parameter name.  Groups do
    not occur in a canonical pattern. *)
Definition canonicalSegment (seg : RouteSegment) : bool :=
  match type seg, param seg with
  | static, _ => Js.truthy (value seg) && plain (value seg)
  | dynamic, Some p => plain p
  | wildcard, Some p => plain p
  | _, _ => false
  end.

(** The canonical pattern of a list of segments, rendered and joined as
    [filePathToRoute] does. *)
Definition canonicalPattern (segs : list RouteSegment) : string :=
  "/" ++ Js.join "/" (map renderSegment segs).

Definition hasType (ty : SegmentType) (seg : RouteSegment) : bool :=
  match ty, type seg with
  | static, static | dynamic, dynamic | wildcard, wildcard | group, group => true
  | _, _ => false
  end.

Definition countType (ty : SegmentType) (segs : list RouteSegment) : Z :=
  Z.of_nat (List.length (filter (hasType ty) segs)).

(** The scoring rule in the specification's words: base 1000, plus 10
    for every segment, minus 100 for every Dynamic segment, minus 200 for
    every CatchAll segment. *)
Definition specScore (segs : list RouteSegment) : Z :=
  (1000 + 10 * Z.of_nat (List.length segs)
   - 100 * countType dynamic segs - 200 * countType wildcard segs)%Z.

(** No separator inside [s]. *)
Definition slashFree (s : string) : Prop :=
  Js.countChars (Ascii.eqb "/") s = 0.

(** A segment that is not a group renders to a non-empty text without a
    separator inside. *)
Definition rendersWell (seg : RouteSegment) : Prop :=
  notGroup seg = true ->
  Js.truthy (renderSegment seg) = true /\ slashFree (renderSegment seg).

(** [a] may stand before [b] in the table: its priority is not lower. *)
Definition notLower {Handler Middleware : Type}
           (a b : FileRouter.RouteInfo Handler Middleware) : Prop :=
  (FileRouter.priority b <= FileRouter.priority a)%Z.

Definition hasPriority {Handler Middleware : Type} (p : Z)
           (a : FileRouter.RouteInfo Handler Middleware) : bool :=
  (FileRouter.priority a =? p)%Z.

(** The tie-break in the specification's words: of two neighbours of
    equal score, the first has the smaller or equal pattern. *)
Fixpoint tiesAscending {Handler Middleware : Type}
         (l : list (FileRouter.RouteInfo Handler Middleware)) : bool :=
  match l with
  | a :: ((b :: _) as l') =>
      (negb (FileRouter.priority a =? FileRouter.priority b)%Z
       || String.leb (FileRouter.path a) (FileRouter.path b))
      && tiesAscending l'
  | _ => true
  end.

(** The names a segment list declares, left to right. *)
Definition declaredNames (segs : list RouteSegment) : list string :=
  flat_map (fun seg =>
              match type seg, param seg with
              | dynamic, Some p | wildcard, Some p => [p]
              | _, _ => []
              end) segs.

Fixpoint hasDuplicate (l : list string) : bool :=
  match l with
  | [] => false
  | x :: l' => existsb (String.eqb x) l' || hasDuplicate l'
  end.

Inductive ParseOutcome :=
| Segments (segs : list RouteSegment)
| InvalidSpecification.

(** The parser's contract in the specification's words: an error when a
    marker has no parameter name or a name is declared twice, the segment
    list otherwise. *)
Definition specParse (spec : string) : ParseOutcome :=
  let segs := segments (parseFilePath spec) in
  let names := declaredNames segs in
  if existsb (fun n => negb (Js.truthy n)) names || hasDuplicate names
  then InvalidSpecification
  else Segments segs.

(** What the source does: it has no failure path and returns the parsed
    route. *)
Definition codeParse (spec : string) : ParseOutcome :=
  Segments (segments (parseFilePath spec)).

(** Every entry of the route map sits under the key the router builds
    from its method and path, and no key occurs twice. *)
Definition keyOf {Handler Middleware : Type}
           (r : FileRouter.RouteInfo Handler Middleware) : string :=
  FileRouter.method r ++ ":" ++ FileRouter.path r.

Definition wellKeyed {Handler Middleware : Type}
           (this : FileRouter.Router Handler Middleware) : Prop :=
  NoDup (JsMap.keys (FileRouter.routes this)) /\
  Forall (fun e => fst e = keyOf (snd e)) (FileRouter.routes this).

(** Every route of the table has one of the five methods the router
    registers. *)
Definition knownMethods {Handler Middleware : Type}
           (this : FileRouter.Router Handler Middleware) : Prop :=
  Forall (fun e => In (FileRouter.method (snd e)) FileRouter.methods)
         (FileRouter.routes this).

(** The priority stored with every route of the table is the score of
    its path. *)
Definition scored {Handler Middleware : Type}
           (this : FileRouter.Router Handler Middleware) : Prop :=
  Forall (fun e => FileRouter.priority (snd e)
                   = FileRouter.calculatePriority (FileRouter.path (snd e)))
         (FileRouter.routes this).

(** [a] may stand before [b]: the score of its path is not lower. *)
Definition byScore {Handler Middleware : Type}
           (a b : FileRouter.RouteInfo Handler Middleware) : Prop :=
  (FileRouter.calculatePriority (FileRouter.path b)
   <= FileRouter.calculatePriority (FileRouter.path a))%Z.

(** The call registers a handler for method [m] on path [p]. *)
Definition registers {Handler Middleware : Type} (m p : string)
           (c : FileRouter.HonoCall Handler Middleware) : bool :=
  match c with
  | FileRouter.Use _ _ => false
  | FileRouter.Get q _ => String.eqb m "GET" && String.eqb q p
  | FileRouter.Post q _ => String.eqb m "POST" && String.eqb q p
  | FileRouter.Put q _ => String.eqb m "PUT" && String.eqb q p
  | FileRouter.Delete q _ => String.eqb m "DELETE" && String.eqb q p
  | FileRouter.Patch q _ => String.eqb m "PATCH" && String.eqb q p
  end.

(** The handler a call hands to the application, if it hands one. *)
Definition handlerOfCall {Handler Middleware : Type}
           (c : FileRouter.HonoCall Handler Middleware) : option Handler :=
  match c with
  | FileRouter.Use _ _ => None
  | FileRouter.Get _ h | FileRouter.Post _ h | FileRouter.Put _ h
  | FileRouter.Delete _ h | FileRouter.Patch _ h => Some h
  end.

(** [f] keeps the tail [b] of its subject: whatever precedes [b], the
    result ends with [b]. *)
Definition keepsTail (b : string) (f : string -> string) : Prop :=
  forall a : string, exists a' : string, f (a ++ b) = a' ++ b.

(** No code unit of [s] is [c]. *)
Definition freeOf (c : ascii) (s : string) : Prop :=
  Js.countChars (fun d => negb (Js.isNot c d)) s = 0.

(** The matcher [m] answers [None] on every subject longer than [n]. *)
Definition boundedBy (n : nat) (m : Js.matcher) : Prop :=
  forall s : string, n < String.length s -> m s = None.

(** What the conversion of a relative path needs of a file-name tail
    [t] to leave [b] of it at the end of the route: removing the
    extension of [t] gives [b], and no later replacement finds a match
    in, or reaching into, [b]. *)
Definition inertTail (t b : string) : Prop :=
  Js.replaceAll Js.re_backslash (fun _ => "/") t = t /\
  Js.replaceFirst Js.re_extension (fun _ => "") t = b /\
  4 <= String.length t /\ 6 <= String.length b /\
  Js.replaceFirst (Js.re_end "/page") (fun _ => "") b = b /\
  Js.replaceFirst (Js.re_end "/route") (fun _ => "") b = b /\
  Js.replaceFirst (Js.re_end "/index") (fun _ => "") b = b /\
  freeOf "]" b /\ freeOf ")" b /\
  Js.replaceAll Js.re_bracket (fun p => ":" ++ p) b = b /\
  Js.replaceAll Js.re_bracket_dots (fun p => "*" ++ p) b = b /\
  Js.replaceAll Js.re_group (fun _ => "") b = b /\
  Js.replaceFirst (Js.re_end "/") (fun _ => "") b = b.

(** The record the router stores for an exported method of a route
    file. *)
Definition routeInfoOf {Handler Middleware : Type}
           (this : FileRouter.Router Handler Middleware)
           (file routePath m : string) (h : Handler)
  : FileRouter.RouteInfo Handler Middleware :=
  FileRouter.mkRoute routePath file m h
    (FileRouter.getMiddlewareForPath this routePath)
    (FileRouter.extractParams routePath)
    (FileRouter.isDynamicRoute routePath)
    (FileRouter.calculatePriority routePath).

(** The identity of a route: its method and its pattern. *)
Definition hasIdentity {Handler Middleware : Type} (m p : string)
           (r : FileRouter.RouteInfo Handler Middleware) : bool :=
  String.eqb (FileRouter.method r) m && String.eqb (FileRouter.path r) p.

(** The middleware scoping rule in the specification's words: the lists
    of the bindings whose prefix the pattern starts with, concatenated in
    the order of the bindings. *)
Definition applicableMiddleware {Middleware : Type}
           (pattern : string) (bindings : list (string * list Middleware))
  : list Middleware :=
  concat (map snd (filter (fun b => String.prefix (fst b) pattern) bindings)).

End Spec.

(* ================================================================== *)
(** * Inputs of the worked examples *)
(* ================================================================== *)

Module Examples.

Import RouteUtils FileRouter.

Definition filesSlug : list RouteSegment :=
  [mkSegment static "files" None; mkSegment wildcard "[...slug]" (Some "slug")].

(** A module that exports one handler, under the name [GET]. *)
Definition exportsGet (h : nat) (name : string) : option nat :=
  if String.eqb name "GET" then Some h else None.

(** Two API route files, [b/route.ts] and [a/route.ts], each exporting
    [GET], registered in the two possible orders. *)
Definition tableBA : Router nat nat :=
  processApiRoute
    (processApiRoute newRouter "api/b/route.ts" "b/route.ts" (exportsGet 1))
    "api/a/route.ts" "a/route.ts" (exportsGet 2).

Definition tableAB : Router nat nat :=
  processApiRoute
    (processApiRoute newRouter "api/a/route.ts" "a/route.ts" (exportsGet 2))
    "api/b/route.ts" "b/route.ts" (exportsGet 1).

(** The same route registered from two files, [v1/users/route.ts] and
    then [v1/(admin)/users/route.ts], with handlers 1 and 2. *)
Definition tableTwice : Router nat nat :=
  processApiRoute
    (processApiRoute newRouter "api/v1/users/route.ts" "v1/users/route.ts"
                     (exportsGet 1))
    "api/v1/(admin)/users/route.ts" "v1/(admin)/users/route.ts" (exportsGet 2).

(** The matcher holding the one route compiled from [files/[...slug]]. *)
Definition filesMatcher : RouteMatcher :=
  addRoute emptyMatcher (filePathToRoute "files/[...slug]").

(** The matcher holding the one route compiled from [(group)/dashboard]. *)
Definition dashboardMatcher : RouteMatcher :=
  addRoute emptyMatcher (filePathToRoute "(group)/dashboard").

End Examples.

(* ================================================================== *)
(** * Notions used by the further properties *)
(* ================================================================== *)

Module Notions.

Import RouteUtils FileRouter.

(** A path with every backslash turned into a slash, as both
    conversions do first. *)
Definition posix (p : string) : string :=
  Js.replaceAll Js.re_backslash (fun _ => "/") p.

(** The first half of [convertFilePathToRoute]: separators, extension
    and the three role suffixes. *)
Definition stripSuffixes (relativePath : string) : string :=
  Js.replaceFirst (Js.re_end "/index") (fun _ => "")
    (Js.replaceFirst (Js.re_end "/route") (fun _ => "")
      (Js.replaceFirst (Js.re_end "/page") (fun _ => "")
        (Js.replaceFirst Js.re_extension (fun _ => "")
          (posix relativePath)))).

(** The second half of [convertFilePathToRoute], from the bracket
    replacements on. *)
Definition finishRoute (stripped : string) : string :=
  let route :=
    Js.replaceAll Js.re_bracket_dots (fun p => "*" ++ p)
      (Js.replaceAll Js.re_bracket (fun p => ":" ++ p) stripped) in
  let route := Js.replaceAll Js.re_group (fun _ => "") route in
  if String.eqb route "page" || String.eqb route "/page" then "/"
  else
    let route := if Js.startsWith route "/" then route else "/" ++ route in
    if String.eqb route "/" then "/"
    else Js.replaceFirst (Js.re_end "/") (fun _ => "") route.

(** The non-empty names of the dynamic segments, left to right. *)
Definition dynamicNames (segs : list RouteSegment) : list string :=
  flat_map (fun seg =>
              match type seg, param seg with
              | dynamic, Some p => if Js.truthy p then [p] else []
              | _, _ => []
              end) segs.

(** The role names [parseFilePath] removes from the end of a path. *)
Definition roleNames : list string := ["page"; "route"; "layout"].

(** What [parseFilePath] starts its loop from. *)
Definition emptyParse : ParsedRoute := mkParsed [] [] false false.

Definition isParam (seg : RouteSegment) : bool :=
  match type seg with dynamic | wildcard => true | _ => false end.

Definition isWildcardSegment (seg : RouteSegment) : bool :=
  match type seg with wildcard => true | _ => false end.

(** A character that stands for itself in a route handed to
    [addRoute]: no syntax character of regular expressions, and not the
    colon. *)
Definition literalChar (c : ascii) : bool :=
  negb (isSyntaxChar c) && negb (Ascii.eqb ":" c).

Definition literal (s : string) : Prop :=
  Js.countChars (fun c => negb (literalChar c)) s = 0.

(** The first replacement of [addRoute]: every slash gets a backslash
    before it. *)
Definition escapeSlashes (path : string) : string :=
  Js.replaceAll Js.re_slash (fun _ => "\/") path.

(** The entry [addRoute] stores for a path. *)
Definition entryOf (path : string) : CompiledEntry :=
  let escaped := escapeSlashes path in
  let afterColon :=
    Js.replaceAll Js.re_colon (fun _ => segmentGroupText) escaped in
  let pattern := Js.replaceAll Js.re_star (fun _ => restGroupText) afterColon in
  mkEntry ("^" ++ pattern ++ "$")
          (Js.captures Js.re_colon escaped
           ++ filter Js.truthy (Js.captures Js.re_star afterColon))%list.

(** A matcher every entry of which was stored by [addRoute]. *)
Definition builtByAddRoute (m : RouteMatcher) : Prop :=
  Forall (fun e => snd e = entryOf (fst e)) m.

Definition literals (s : string) : list piece :=
  map Lit (list_ascii_of_string s).

Definition isSlashFree (s : string) : bool :=
  Nat.eqb (Js.countChars (fun d => negb (Js.isNot "/" d)) s) 0.

(** The extensions of the default options, without the dot. *)
Definition sourceExtensions : list string := ["ts"; "tsx"; "js"; "jsx"].

End Notions.

(* ================================================================== *)
(** * Facts about the string primitives *)
(* ================================================================== *)

Lemma string_app_length (s t : string) :
  String.length (s ++ t) = String.length s + String.length t.
Proof. induction s as [|c s IH]; simpl; [reflexivity | now rewrite IH]. Qed.

Lemma string_app_assoc (s t u : string) : (s ++ t) ++ u = s ++ (t ++ u).
Proof. induction s as [|c s IH]; simpl; [reflexivity | now rewrite IH]. Qed.

Lemma string_app_nil_r (s : string) : s ++ "" = s.
Proof. induction s as [|c s IH]; simpl; [reflexivity | now rewrite IH]. Qed.

Lemma string_eqb_length (s t : string) :
  String.length s <> String.length t -> String.eqb s t = false.
Proof.
  intros H. destruct (String.eqb_spec s t) as [->|]; [contradiction | reflexivity].
Qed.

Lemma countChars_app ok (s t : string) :
  Js.countChars ok (s ++ t) = Js.countChars ok s + Js.countChars ok t.
Proof. induction s as [|c s IH]; simpl; [reflexivity | rewrite IH; lia]. Qed.

(** A class that holds nowhere in [s] when a larger class does not. *)
Lemma countChars_zero_mono (ok bad : ascii -> bool) (s : string) :
  (forall c, ok c = true -> bad c = true) ->
  Js.countChars bad s = 0 -> Js.countChars ok s = 0.
Proof.
  intros Hsub. induction s as [|c s IH]; simpl; [reflexivity|].
  destruct (bad c) eqn:Hb; [discriminate|].
  destruct (ok c) eqn:Ho; [apply Hsub in Ho; congruence|].
  exact IH.
Qed.

(** [k] separators give [k + 1] parts. *)
Lemma split_length sep s :
  List.length (Js.split sep s) = S (Js.countChars (Ascii.eqb sep) s).
Proof.
  induction s as [|c s IH]; simpl; [reflexivity|].
  rewrite (Ascii.eqb_sym sep c).
  destruct (Ascii.eqb c sep); simpl.
  - now rewrite IH.
  - destruct (Js.split sep s) as [|h t] eqn:E; simpl in *; [discriminate | exact IH].
Qed.

Lemma split_no_sep sep s :
  Js.countChars (Ascii.eqb sep) s = 0 -> Js.split sep s = [s].
Proof.
  induction s as [|c s IH]; simpl; [reflexivity|].
  rewrite (Ascii.eqb_sym sep c).
  destruct (Ascii.eqb c sep); simpl; [discriminate|].
  intros H. now rewrite (IH H).
Qed.

Lemma split_app_sep sep s t :
  Js.countChars (Ascii.eqb sep) s = 0 ->
  Js.split sep (s ++ String sep t) = s :: Js.split sep t.
Proof.
  induction s as [|c s IH]; simpl.
  - now rewrite Ascii.eqb_refl.
  - rewrite (Ascii.eqb_sym sep c).
    destruct (Ascii.eqb c sep); simpl; [discriminate|].
    intros H. now rewrite (IH H).
Qed.

(* ================================================================== *)
(** * The two scoring functions *)
(* ================================================================== *)

Section Scoring.

Import RouteUtils Spec.

Lemma countChars_marker (r : string) :
  Js.countChars FileRouter.isMarker r
  = Js.countChars (Ascii.eqb ":") r + Js.countChars (Ascii.eqb "*") r.
Proof.
  induction r as [|c r IH]; [reflexivity|].
  cbn [Js.countChars]. rewrite IH. unfold FileRouter.isMarker.
  rewrite (Ascii.eqb_sym c ":"), (Ascii.eqb_sym c "*").
  destruct (Ascii.eqb_spec ":" c) as [E|E].
  - subst c. change (Ascii.eqb "*" ":") with false. cbn [orb]. lia.
  - destruct (Ascii.eqb "*" c); cbn [orb]; lia.
Qed.

(** The exact difference of the two functions, on every string. *)
Lemma priority_difference (r : string) :
  FileRouter.calculatePriority r
  = (calculateRoutePriority r
     + 10 * Z.of_nat (List.length
                        (filter (fun x => negb (Js.truthy x)) (Js.split "/" r)))
     + 100 * Z.of_nat (Js.countChars (Ascii.eqb "*") r))%Z.
Proof.
  unfold FileRouter.calculatePriority, calculateRoutePriority.
  rewrite countChars_marker.
  rewrite <- (filter_length Js.truthy (Js.split "/" r)).
  lia.
Qed.

Lemma plain_no (c : ascii) (s : string) :
  plainChar c = false -> plain s = true ->
  Js.countChars (Ascii.eqb c) s = 0.
Proof.
  intros Hc Hs. apply Nat.eqb_eq in Hs.
  apply countChars_zero_mono with (2 := Hs).
  intros d Hd. apply Ascii.eqb_eq in Hd. subst d. now rewrite Hc.
Qed.

Lemma render_truthy seg :
  canonicalSegment seg = true -> Js.truthy (renderSegment seg) = true.
Proof.
  unfold canonicalSegment, renderSegment.
  destruct (type seg), (param seg); simpl; try discriminate; auto.
  all: intros H; apply andb_true_iff in H; tauto.
Qed.

Lemma render_count (c : ascii) seg :
  plainChar c = false -> canonicalSegment seg = true ->
  Js.countChars (Ascii.eqb c) (renderSegment seg)
  = match type seg with
    | dynamic => if Ascii.eqb c ":" then 1 else 0
    | wildcard => if Ascii.eqb c "*" then 1 else 0
    | _ => 0
    end.
Proof.
  intros Hc. unfold canonicalSegment, renderSegment.
  destruct (type seg), (param seg) as [p|]; simpl; try discriminate.
  - intros H. apply andb_true_iff in H. now apply plain_no.
  - intros H. apply andb_true_iff in H. now apply plain_no.
  - intros H. rewrite (plain_no c p Hc H). lia.
  - intros H. rewrite (plain_no c p Hc H). lia.
Qed.

Lemma join_cons sep (x : string) (l : list string) :
  l <> [] -> Js.join sep (x :: l) = x ++ sep ++ Js.join sep l.
Proof. destruct l; [congruence | reflexivity]. Qed.

(** Splitting the joined rendering gives the rendered segments back. *)
Lemma split_join_render segs :
  forallb canonicalSegment segs = true ->
  filter Js.truthy (Js.split "/" (Js.join "/" (map renderSegment segs)))
  = map renderSegment segs.
Proof.
  induction segs as [|a l IH]; [reflexivity|].
  intros H. simpl in H. apply andb_true_iff in H. destruct H as [Ha Hl].
  assert (Hs : Js.countChars (Ascii.eqb "/") (renderSegment a) = 0).
  { rewrite (render_count "/" a eq_refl Ha). now destruct (type a). }
  destruct l as [|b l].
  - simpl. rewrite (split_no_sep _ _ Hs). simpl. now rewrite (render_truthy a Ha).
  - change (map renderSegment (a :: b :: l))
      with (renderSegment a :: map renderSegment (b :: l)).
    rewrite join_cons by discriminate.
    change ("/" ++ Js.join "/" (map renderSegment (b :: l)))
      with (String "/" (Js.join "/" (map renderSegment (b :: l)))).
    rewrite (split_app_sep _ _ _ Hs).
    cbn [filter]. rewrite (render_truthy a Ha).
    now rewrite (IH Hl).
Qed.

Lemma count_join_render (c : ascii) segs :
  plainChar c = false -> Ascii.eqb c "/" = false ->
  forallb canonicalSegment segs = true ->
  Js.countChars (Ascii.eqb c) (Js.join "/" (map renderSegment segs))
  = List.length
      (filter (fun seg => match type seg with
                          | dynamic => Ascii.eqb c ":"
                          | wildcard => Ascii.eqb c "*"
                          | _ => false
                          end) segs).
Proof.
  intros Hc Hsl. induction segs as [|a l IH]; [reflexivity|].
  intros H. simpl in H. apply andb_true_iff in H. destruct H as [Ha Hl].
  pose proof (render_count c a Hc Ha) as Hr.
  destruct l as [|b l].
  - simpl in *. rewrite Hr.
    destruct (type a); try reflexivity;
      match goal with |- context [Ascii.eqb c ?m] => destruct (Ascii.eqb c m) end;
      reflexivity.
  - change (map renderSegment (a :: b :: l))
      with (renderSegment a :: map renderSegment (b :: l)).
    rewrite join_cons by discriminate.
    rewrite !countChars_app, (IH Hl), Hr.
    simpl Js.countChars. rewrite Hsl.
    simpl filter at 2.
    destruct (type a); simpl; try lia;
      match goal with |- context [Ascii.eqb c ?m] => destruct (Ascii.eqb c m) end;
      simpl; lia.
Qed.

(** [calculateRoutePriority] computes the specification's score. *)
Lemma routePriority_spec segs :
  forallb canonicalSegment segs = true ->
  calculateRoutePriority (canonicalPattern segs) = specScore segs.
Proof.
  intros H. unfold calculateRoutePriority, canonicalPattern, specScore, countType.
  change ("/" ++ Js.join "/" (map renderSegment segs))
    with (String "/" (Js.join "/" (map renderSegment segs))).
  cbn [Js.split Ascii.eqb Bool.eqb]. cbn [filter Js.truthy].
  rewrite (split_join_render segs H), length_map.
  cbn [Js.countChars Ascii.eqb Bool.eqb].
  rewrite (count_join_render ":" segs eq_refl eq_refl H).
  rewrite (count_join_render "*" segs eq_refl eq_refl H).
  assert (E1 : filter (fun seg => match type seg with
                          | dynamic => Ascii.eqb ":" ":"
                          | wildcard => Ascii.eqb ":" "*"
                          | _ => false end) segs = filter (hasType dynamic) segs).
  { apply filter_ext. intros seg. unfold hasType. now destruct (type seg). }
  assert (E2 : filter (fun seg => match type seg with
                          | dynamic => Ascii.eqb "*" ":"
                          | wildcard => Ascii.eqb "*" "*"
                          | _ => false end) segs = filter (hasType wildcard) segs).
  { apply filter_ext. intros seg. unfold hasType. now destruct (type seg). }
  rewrite E1, E2. lia.
Qed.

(** Without the filter: the parts are the rendered segments, and the one
    empty part when there is no segment. *)
Lemma split_join_parts segs :
  forallb canonicalSegment segs = true ->
  Js.split "/" (Js.join "/" (map renderSegment segs))
  = match segs with [] => [""] | _ => map renderSegment segs end.
Proof.
  induction segs as [|a l IH]; [reflexivity|].
  intros H. simpl in H. apply andb_true_iff in H. destruct H as [Ha Hl].
  assert (Hs : Js.countChars (Ascii.eqb "/") (renderSegment a) = 0).
  { rewrite (render_count "/" a eq_refl Ha). now destruct (type a). }
  destruct l as [|b l].
  - simpl. now rewrite (split_no_sep _ _ Hs).
  - change (map renderSegment (a :: b :: l))
      with (renderSegment a :: map renderSegment (b :: l)).
    rewrite join_cons by discriminate.
    change ("/" ++ Js.join "/" (map renderSegment (b :: l)))
      with (String "/" (Js.join "/" (map renderSegment (b :: l)))).
    rewrite (split_app_sep _ _ _ Hs). now rewrite (IH Hl).
Qed.

(** [calculatePriority] on a canonical pattern: the leading separator
    counts as a part, and both markers cost 100. *)
Lemma filePriority_canonical segs :
  forallb canonicalSegment segs = true ->
  FileRouter.calculatePriority (canonicalPattern segs)
  = (1000 + 10 * (Z.max 1 (Z.of_nat (List.length segs)) + 1)
     - 100 * (countType dynamic segs + countType wildcard segs))%Z.
Proof.
  intros H. rewrite priority_difference, (routePriority_spec segs H).
  unfold canonicalPattern, specScore, countType.
  change ("/" ++ Js.join "/" (map renderSegment segs))
    with (String "/" (Js.join "/" (map renderSegment segs))).
  cbn [Js.split Ascii.eqb Bool.eqb]. cbn [filter Js.truthy negb].
  cbn [Js.countChars Ascii.eqb Bool.eqb].
  rewrite (count_join_render "*" segs eq_refl eq_refl H).
  assert (E2 : filter (fun seg => match type seg with
                          | dynamic => Ascii.eqb "*" ":"
                          | wildcard => Ascii.eqb "*" "*"
                          | _ => false end) segs = filter (hasType wildcard) segs).
  { apply filter_ext. intros seg. unfold hasType. now destruct (type seg). }
  rewrite E2, (split_join_parts segs H).
  destruct segs as [|a l]; [reflexivity|].
  assert (E : filter (fun x => negb (Js.truthy x)) (map renderSegment (a :: l)) = []).
  { clear E2. revert H. generalize (a :: l) as ss.
    induction ss as [|x ss IH]; [reflexivity|].
    intros H. simpl in H. apply andb_true_iff in H. destruct H as [Hx Hss].
    simpl. rewrite (render_truthy x Hx). simpl. now apply IH. }
  rewrite E. cbn [List.length]. lia.
Qed.

End Scoring.

(* ================================================================== *)
(** * Insertion-ordered maps *)
(* ================================================================== *)

Section MapFacts.

Context {V : Type}.
Implicit Types (m : JsMap.t V) (k : string) (v : V).

Lemma get_set_same m k v : JsMap.get (JsMap.set m k v) k = Some v.
Proof.
  induction m as [|[k' v'] m IH]; simpl.
  - now rewrite String.eqb_refl.
  - destruct (String.eqb k' k) eqn:E; simpl; rewrite E; [reflexivity | exact IH].
Qed.

Lemma get_set_other m k k' v :
  k <> k' -> JsMap.get (JsMap.set m k v) k' = JsMap.get m k'.
Proof.
  intros Hne. induction m as [|[k0 v0] m IH]; simpl.
  - destruct (String.eqb_spec k k'); [contradiction | reflexivity].
  - destruct (String.eqb_spec k0 k) as [->|]; simpl.
    + destruct (String.eqb_spec k k'); [contradiction | reflexivity].
    + now rewrite IH.
Qed.

(** Setting a key twice is setting it once, to the later value: the
    earlier value leaves no trace, in content or in order. *)
Lemma set_set m k v1 v2 :
  JsMap.set (JsMap.set m k v1) k v2 = JsMap.set m k v2.
Proof.
  induction m as [|[k' v'] m IH]; simpl.
  - now rewrite String.eqb_refl.
  - destruct (String.eqb k' k) eqn:E; simpl; rewrite E; [reflexivity|].
    now rewrite IH.
Qed.

Lemma keys_set m k v :
  JsMap.keys (JsMap.set m k v)
  = if existsb (String.eqb k) (JsMap.keys m) then JsMap.keys m
    else (JsMap.keys m ++ [k])%list.
Proof.
  unfold JsMap.keys.
  induction m as [|[k' v'] m IH]; simpl; [reflexivity|].
  rewrite (String.eqb_sym k k').
  destruct (String.eqb k' k) eqn:E; simpl; [reflexivity|].
  rewrite IH.
  now destruct (existsb (String.eqb k) (map fst m)).
Qed.

Lemma keys_set_NoDup m k v :
  NoDup (JsMap.keys m) -> NoDup (JsMap.keys (JsMap.set m k v)).
Proof.
  intros Hnd. rewrite keys_set.
  destruct (existsb (String.eqb k) (JsMap.keys m)) eqn:E; [exact Hnd|].
  apply NoDup_app_remove_l with (l := []). simpl.
  apply Permutation_NoDup with (l := k :: JsMap.keys m).
  - apply Permutation_cons_append.
  - constructor; [|exact Hnd].
    intros Hin. assert (existsb (String.eqb k) (JsMap.keys m) = true); [|congruence].
    apply existsb_exists. exists k. split; [exact Hin | apply String.eqb_refl].
Qed.

Lemma in_set m k v k' v' :
  In (k', v') (JsMap.set m k v) -> (k' = k /\ v' = v) \/ In (k', v') m.
Proof.
  induction m as [|[k0 v0] m IH]; simpl.
  - intros [H|[]]. left. now inversion H.
  - destruct (String.eqb_spec k0 k) as [->|]; simpl.
    + intros [H|H]; [left; now inversion H | right; now right].
    + intros [H|H]; [right; now left|].
      destruct (IH H) as [?|?]; [now left | right; now right].
Qed.

(** With distinct keys, the entry of a key is the one [get] returns. *)
Lemma in_get m k v :
  NoDup (JsMap.keys m) -> In (k, v) m -> JsMap.get m k = Some v.
Proof.
  induction m as [|[k0 v0] m IH]; simpl; [intros _ []|].
  intros Hnd [H|H].
  - inversion H; subst. now rewrite String.eqb_refl.
  - inversion Hnd as [|? ? Hnotin Hnd']; subst.
    destruct (String.eqb_spec k0 k) as [->|].
    + exfalso. apply Hnotin. unfold JsMap.keys.
      change k with (fst (k, v)). now apply in_map.
    + now apply IH.
Qed.

End MapFacts.


(* ================================================================== *)
(** * The sort of the routing table *)
(* ================================================================== *)

Section SortFacts.

Import Spec.

Variables Handler Middleware : Type.
Implicit Types (a b : FileRouter.RouteInfo Handler Middleware).
Implicit Types (l : list (FileRouter.RouteInfo Handler Middleware)).

Lemma insertRoute_perm a l : Permutation (a :: l) (FileRouter.insertRoute a l).
Proof.
  induction l as [|b l IH]; simpl; [apply Permutation_refl|].
  destruct (FileRouter.comparePriority a b <=? 0)%Z; [apply Permutation_refl|].
  eapply perm_trans; [apply perm_swap | now apply perm_skip].
Qed.

Lemma sortRoutes_perm l : Permutation l (FileRouter.sortRoutes l).
Proof.
  induction l as [|a l IH]; simpl; [constructor|].
  eapply perm_trans; [apply perm_skip, IH | apply insertRoute_perm].
Qed.

Lemma insertRoute_sorted a l :
  StronglySorted notLower l -> StronglySorted notLower (FileRouter.insertRoute a l).
Proof.
  induction 1 as [|b l Hs IH Hall]; simpl.
  - repeat constructor.
  - destruct (FileRouter.comparePriority a b <=? 0)%Z eqn:E.
    + apply Z.leb_le in E. unfold FileRouter.comparePriority in E.
      constructor; [now constructor|].
      constructor; [unfold notLower; lia|].
      eapply Forall_impl; [|exact Hall].
      unfold notLower. intros c Hc. lia.
    + apply Z.leb_gt in E. unfold FileRouter.comparePriority in E.
      constructor; [exact IH|].
      eapply Permutation_Forall; [apply insertRoute_perm|].
      constructor; [unfold notLower; lia | exact Hall].
Qed.

Lemma sortRoutes_sorted l : StronglySorted notLower (FileRouter.sortRoutes l).
Proof.
  induction l as [|a l IH]; simpl; [constructor | now apply insertRoute_sorted].
Qed.

Lemma insertRoute_filter p a l :
  filter (hasPriority p) (FileRouter.insertRoute a l)
  = filter (hasPriority p) (a :: l).
Proof.
  induction l as [|b l IH]; [reflexivity|].
  cbn [FileRouter.insertRoute].
  destruct (FileRouter.comparePriority a b <=? 0)%Z eqn:E; [reflexivity|].
  apply Z.leb_gt in E. unfold FileRouter.comparePriority in E.
  cbn [filter] in *. rewrite IH. unfold hasPriority.
  destruct (Z.eqb_spec (FileRouter.priority a) p),
           (Z.eqb_spec (FileRouter.priority b) p); try reflexivity; lia.
Qed.

(** Routes of one priority keep the order they had before the sort. *)
Lemma sortRoutes_stable p l :
  filter (hasPriority p) (FileRouter.sortRoutes l) = filter (hasPriority p) l.
Proof.
  induction l as [|a l IH]; [reflexivity|].
  cbn [FileRouter.sortRoutes fold_right].
  change (fold_right FileRouter.insertRoute [] l) with (FileRouter.sortRoutes l).
  rewrite insertRoute_filter. cbn [filter]. now rewrite IH.
Qed.

End SortFacts.


(* ================================================================== *)
(** * Specificity score *)
(* ================================================================== *)

Section ScoreClaims.

Import RouteUtils Spec Examples.

(** The file router's [calculatePriority] does not compute the
    specification's score: on the canonical pattern of [files/[...slug]]
    it answers 930 where the rule gives 820. *)
Lemma calculatePriority_not_specScore :
  canonicalPattern filesSlug = "/files/*slug" /\
  FileRouter.calculatePriority (canonicalPattern filesSlug) = 930%Z /\
  specScore filesSlug = 820%Z /\
  FileRouter.calculatePriority (canonicalPattern filesSlug) <> specScore filesSlug.
Proof. repeat split. vm_compute. discriminate. Qed.

(** The two scoring functions disagree on the canonical pattern
    [/users]. *)
Lemma priorities_differ_on_users :
  FileRouter.calculatePriority "/users" = 1020%Z /\
  calculateRoutePriority "/users" = 1010%Z /\
  FileRouter.calculatePriority "/users" <> calculateRoutePriority "/users".
Proof. repeat split. vm_compute. discriminate. Qed.

(** C2 (as amended).  The two scoring functions are related on every
    string: [calculatePriority] is [calculateRoutePriority] plus 10 for
    every empty part of the split on the separator, plus 100 for every
    star.  A pattern begins with the separator, hence has an empty part:
    the file router's score is always at least 10 higher, and the two
    agree on no pattern. *)
Theorem priority_functions_related (r : string) :
  FileRouter.calculatePriority r
  = (calculateRoutePriority r
     + 10 * Z.of_nat (List.length
                        (filter (fun x => negb (Js.truthy x)) (Js.split "/" r)))
     + 100 * Z.of_nat (Js.countChars (Ascii.eqb "*") r))%Z /\
  (calculateRoutePriority ("/" ++ r) + 10
   <= FileRouter.calculatePriority ("/" ++ r))%Z.
Proof.
  split; [apply priority_difference|].
  rewrite (priority_difference ("/" ++ r)).
  change ("/" ++ r) with (String "/" r).
  cbn [Js.split Ascii.eqb Bool.eqb]. cbn [filter Js.truthy negb List.length].
  lia.
Qed.

End ScoreClaims.

(* ================================================================== *)
(** * Order of the routing table *)
(* ================================================================== *)

Section OrderClaims.

Import FileRouter Spec Examples.

(** Two routes of equal score stay in registration order: [/b] before
    [/a] although [/a] is the smaller string, and the other way round
    when registered the other way round. *)
Lemma ties_not_lexicographic :
  map priority (sortedRoutes tableBA) = [1020%Z; 1020%Z] /\
  map path (sortedRoutes tableBA) = ["/b"; "/a"] /\
  String.ltb "/a" "/b" = true /\
  tiesAscending (sortedRoutes tableBA) = false /\
  map path (sortedRoutes tableAB) = ["/a"; "/b"].
Proof. repeat split. Qed.

(** C3 (as amended).  The routing table is the registered routes sorted
    by descending priority with a stable sort and no other key: it is a
    permutation of the map's values, no route stands before one of higher
    priority, and the routes of one priority are in the order of the map,
    which is the order of first registration of their keys. *)
Theorem sortedRoutes_stable_descending
        (Handler Middleware : Type) (this : Router Handler Middleware) :
  Permutation (JsMap.values (routes this)) (sortedRoutes this) /\
  StronglySorted notLower (sortedRoutes this) /\
  forall p : Z,
    filter (hasPriority p) (sortedRoutes this)
    = filter (hasPriority p) (JsMap.values (routes this)).
Proof.
  split; [apply sortRoutes_perm|].
  split; [apply sortRoutes_sorted|].
  intros p. apply sortRoutes_stable.
Qed.

End OrderClaims.

(* ================================================================== *)
(** * Matching with [RouteMatcher] *)
(* ================================================================== *)

Section MatcherClaims.

Import RouteUtils Spec Examples.

(** The greedy group before the end of the expression takes all that is
    left, when nothing in it is a line terminator. *)
Lemma greedy_rest_all (taken rest : string) :
  Js.countChars (fun c => negb (dot c)) rest = 0 ->
  greedy dot (matchPieces []) taken rest = Some [taken ++ rest].
Proof.
  revert taken. induction rest as [|c rest IH]; intros taken H.
  - simpl. now rewrite string_app_nil_r.
  - cbn [Js.countChars] in H. destruct (dot c) eqn:Hc; [|discriminate].
    cbn [greedy]. rewrite Hc, IH by exact H.
    now rewrite string_app_assoc.
Qed.

Lemma filesMatcher_value :
  filesMatcher = [("/files/*slug", mkEntry "^\/files\/(.*)$" ["slug"])].
Proof. reflexivity. Qed.

(** A request path that ends right after the separator matches the
    catch-all route and binds the parameter to the empty list: a
    successful match need not capture a segment. *)
Lemma catch_all_captures_nothing :
  matchRoute filesMatcher "/files/" = Matched "/files/*slug" [("slug", PList [])] /\
  ~ (forall path l,
        matchRoute filesMatcher path = Matched "/files/*slug" [("slug", PList l)] ->
        l <> []).
Proof.
  assert (H : matchRoute filesMatcher "/files/"
              = Matched "/files/*slug" [("slug", PList [])]) by reflexivity.
  split; [exact H|].
  intros Hall. now apply (Hall _ _ H).
Qed.

(** C4 (as amended).  The specification [files/[...slug]] compiles to
    [/files/*slug]; the request [/files/a/b/c] matches and binds [slug]
    to [a], [b], [c]; the request [/files] does not match, because the
    expression requires the separator after [files]; every request
    [/files/] followed by any text free of line terminators matches and
    binds [slug] to the non-empty parts of that text, which may be
    none. *)
Theorem catch_all_matching :
  filePathToRoute "files/[...slug]" = "/files/*slug" /\
  matchRoute filesMatcher "/files/a/b/c"
  = Matched "/files/*slug" [("slug", PList ["a"; "b"; "c"])] /\
  matchRoute filesMatcher "/files" = Null /\
  forall rest : string,
    Js.countChars (fun c => negb (dot c)) rest = 0 ->
    matchRoute filesMatcher ("/files/" ++ rest)
    = Matched "/files/*slug"
              [("slug", PList (filter Js.truthy (Js.split "/" rest)))].
Proof.
  split; [reflexivity|]. split; [reflexivity|]. split; [reflexivity|].
  intros rest H. rewrite filesMatcher_value.
  cbn [matchRoute pattern entryParams].
  change (compileRegExp "^\/files\/(.*)$")
    with (Some [Lit "/"; Lit "f"; Lit "i"; Lit "l"; Lit "e"; Lit "s"; Lit "/";
                GroupRest]).
  cbn [matchPieces String.append Ascii.eqb Bool.eqb].
  pose proof (greedy_rest_all "" rest H) as G.
  cbn [matchPieces String.append] in G. rewrite G.
  reflexivity.
Qed.

Lemma catch_all_matching_empty_rest :
  Js.countChars (fun c => negb (dot c)) "" = 0 /\
  matchRoute filesMatcher "/files/" = Matched "/files/*slug" [("slug", PList [])].
Proof.
  split; [reflexivity|].
  destruct catch_all_matching as (_ & _ & _ & H).
  exact (H "" eq_refl).
Defined.

(** C5.  The file router compiles [(group)/dashboard] to
    [/(group)/dashboard]: its expression for groups asks for a separator
    before the parenthesis, which a group at the start of a relative path
    does not have.  It elides a group that follows a separator, and
    [filePathToRoute] of route-utils elides the leading group as well,
    giving [/dashboard], which matches the request [/dashboard]. *)
Theorem leading_group_not_elided :
  FileRouter.convertFilePathToRoute "(group)/dashboard" = "/(group)/dashboard" /\
  FileRouter.convertFilePathToRoute "(group)/dashboard/page.tsx"
  = "/(group)/dashboard" /\
  FileRouter.convertFilePathToRoute "app/(group)/dashboard/page.tsx"
  = "/app/dashboard" /\
  filePathToRoute "(group)/dashboard" = "/dashboard" /\
  matchRoute dashboardMatcher "/dashboard" = Matched "/dashboard" [].
Proof. repeat split. Qed.

End MatcherClaims.

(* ================================================================== *)
(** * Rendering of the canonical pattern *)
(* ================================================================== *)

Section RenderingFacts.

Import RouteUtils Spec.

Lemma countChars_drop_le ok n s :
  Js.countChars ok (Js.drop n s) <= Js.countChars ok s.
Proof.
  revert s. induction n as [|n IH]; intros [|c s]; simpl; try lia.
  specialize (IH s). lia.
Qed.

Lemma countChars_substring_le ok n m s :
  Js.countChars ok (String.substring n m s) <= Js.countChars ok s.
Proof.
  revert n m. induction s as [|c s IH]; intros [|n] [|m]; simpl; try lia.
  - specialize (IH 0 m). lia.
  - specialize (IH n 0). lia.
  - specialize (IH n (S m)). lia.
Qed.

Lemma split_parts_free sep s :
  Forall (fun t => Js.countChars (Ascii.eqb sep) t = 0) (Js.split sep s).
Proof.
  induction s as [|c s IH]; simpl; [repeat constructor|].
  destruct (Ascii.eqb c sep) eqn:E; [now constructor|].
  destruct (Js.split sep s) as [|h t]; [repeat constructor; simpl|].
  - rewrite Ascii.eqb_sym, E. reflexivity.
  - inversion IH as [|? ? Hh Ht]; subst. constructor; [|exact Ht].
    simpl. rewrite Ascii.eqb_sym, E. exact Hh.
Qed.

Lemma endsWith_slashFree s : slashFree s -> Js.endsWith s "/" = false.
Proof.
  unfold slashFree. induction s as [|c s IH]; [reflexivity|].
  cbn [Js.countChars Js.endsWith]. intros H.
  destruct (Ascii.eqb_spec "/" c) as [<-|Hc]; [discriminate|].
  rewrite IH by (simpl in H; lia).
  destruct (String.eqb_spec (String c s) "/") as [E|]; [|reflexivity].
  inversion E. congruence.
Qed.

Lemma endsWith_app pre s lit :
  1 <= String.length s -> String.length lit = 1 ->
  Js.endsWith (pre ++ s) lit = Js.endsWith s lit.
Proof.
  intros Hs Hl. induction pre as [|c pre IH]; [reflexivity|].
  change (String c pre ++ s) with (String c (pre ++ s)).
  cbn [Js.endsWith]. rewrite IH.
  rewrite string_eqb_length; [reflexivity|].
  simpl. rewrite string_app_length. lia.
Qed.

Lemma endsWith_join pre (l : list string) :
  l <> [] ->
  Forall (fun t => Js.truthy t = true /\ slashFree t) l ->
  Js.endsWith (pre ++ Js.join "/" l) "/" = false.
Proof.
  intros Hne Hall. revert pre. induction Hall as [|x l [Hx Hf] Hall IH]; intros pre.
  - congruence.
  - destruct l as [|y l].
    + simpl. rewrite endsWith_app; [now apply endsWith_slashFree | | reflexivity].
      destruct x; [discriminate | simpl; lia].
    + rewrite join_cons by discriminate.
      rewrite <- !string_app_assoc. apply IH. discriminate.
Qed.

Lemma replaceFirst_end_noop lit rep s :
  Js.endsWith s lit = false -> Js.replaceFirst (Js.re_end lit) rep s = s.
Proof.
  induction s as [|c s IH]; cbn [Js.endsWith Js.replaceFirst];
    intros H; apply orb_false_iff in H; destruct H as [E H];
    unfold Js.re_end at 1; rewrite E.
  - reflexivity.
  - now rewrite (IH H).
Qed.

Lemma parseSegment_rendersWell acc t :
  Js.truthy t = true -> slashFree t ->
  Forall rendersWell (segments acc) ->
  Forall rendersWell (segments (parseSegment acc t)).
Proof.
  intros Ht Hf Hacc. unfold parseSegment.
  assert (Hslice : slashFree (Js.slice_1_m1 t)).
  { unfold slashFree, Js.slice_1_m1 in *.
    pose proof (countChars_substring_le (Ascii.eqb "/") 1 (String.length t - 2) t).
    lia. }
  repeat match goal with |- context [if ?b then _ else _] => destruct b end;
    cbn [segments]; apply Forall_app; (split; [exact Hacc|]);
    (constructor; [|constructor]); intros Hg;
    try discriminate; unfold renderSegment; cbn [type param value paramText].
  - split; [reflexivity|]. unfold slashFree in *. cbn [String.append Js.countChars].
    pose proof (countChars_drop_le (Ascii.eqb "/") 3 (Js.slice_1_m1 t)).
    change (Ascii.eqb "/" "*") with false. cbv iota. lia.
  - split; [reflexivity|]. unfold slashFree in *. cbn [String.append Js.countChars].
    change (Ascii.eqb "/" ":") with false. cbv iota. lia.
  - split; assumption.
Qed.

Lemma parse_fold_rendersWell tokens acc :
  Forall (fun t => Js.truthy t = true /\ slashFree t) tokens ->
  Forall rendersWell (segments acc) ->
  Forall rendersWell (segments (fold_left parseSegment tokens acc)).
Proof.
  intros Htok. revert acc. induction Htok as [|t tokens [Ht Hf] _ IH]; intros acc Hacc.
  - exact Hacc.
  - simpl. apply IH. now apply parseSegment_rendersWell.
Qed.

Lemma tokens_good s :
  Forall (fun t => Js.truthy t = true /\ slashFree t)
         (filter Js.truthy (Js.split "/" s)).
Proof.
  apply Forall_forall. intros t Hin. apply filter_In in Hin. destruct Hin as [Hin Ht].
  split; [exact Ht|].
  pose proof (split_parts_free "/" s) as H. rewrite Forall_forall in H.
  now apply H.
Qed.

(** [filePathToRoute] is the canonical pattern of the non-group
    segments, and ends with the separator only when it is the root. *)
Lemma filePathToRoute_canonical spec :
  filePathToRoute spec
  = canonicalPattern (filter notGroup (segments (parseFilePath spec))) /\
  (filePathToRoute spec = "/" \/ Js.endsWith (filePathToRoute spec) "/" = false).
Proof.
  unfold filePathToRoute, canonicalPattern. cbv zeta.
  set (segs := filter notGroup (segments (parseFilePath spec))).
  assert (Hgood : Forall (fun t => Js.truthy t = true /\ slashFree t)
                         (map renderSegment segs)).
  { assert (Hall : Forall rendersWell (segments (parseFilePath spec))).
    { unfold parseFilePath. apply parse_fold_rendersWell; [apply tokens_good|].
      constructor. }
    apply Forall_forall. intros r Hr. apply in_map_iff in Hr.
    destruct Hr as (seg & <- & Hseg). unfold segs in Hseg.
    apply filter_In in Hseg. destruct Hseg as [Hin Hg].
    rewrite Forall_forall in Hall. now apply (Hall seg Hin). }
  destruct (String.eqb_spec ("/" ++ Js.join "/" (map renderSegment segs)) "/")
    as [E|E].
  - rewrite E. split; [reflexivity | now left].
  - assert (Hne : map renderSegment segs <> []).
    { intros Hnil. apply E. now rewrite Hnil. }
    pose proof (endsWith_join "/" _ Hne Hgood) as Hend.
    rewrite (replaceFirst_end_noop _ _ _ Hend).
    split; [reflexivity | now right].
Qed.

End RenderingFacts.

Section RenderingClaims.

Import RouteUtils Spec.

(** C6.  [filePathToRoute] of route-utils follows the rule on every
    specification: its result is the non-group segments rendered and
    joined after a leading separator, a catch-all as the wildcard form,
    the root when there is none, and never a trailing separator
    otherwise.  [convertFilePathToRoute] of the file router renders the
    catch-all [[...slug]] as the parameter form [:...slug]: its
    replacement of bracketed names runs before its replacement of the
    catch-all marker and consumes it. *)
Theorem catch_all_rendered_as_parameter :
  (forall spec : string,
      filePathToRoute spec
      = canonicalPattern (filter notGroup (segments (parseFilePath spec))) /\
      (filePathToRoute spec = "/"
       \/ Js.endsWith (filePathToRoute spec) "/" = false)) /\
  filePathToRoute "files/[...slug]" = "/files/*slug" /\
  filePathToRoute "files/[...slug]/page.tsx" = "/files/*slug" /\
  FileRouter.convertFilePathToRoute "files/[...slug]" = "/files/:...slug" /\
  FileRouter.convertFilePathToRoute "files/[...slug]/page.tsx" = "/files/:...slug".
Proof.
  split; [exact filePathToRoute_canonical | repeat split].
Qed.

End RenderingClaims.

(* ================================================================== *)
(** * The segment parser *)
(* ================================================================== *)

Section ParserClaims.

Import RouteUtils Spec.

Lemma parseSegment_length acc seg :
  List.length (segments (parseSegment acc seg)) = S (List.length (segments acc)).
Proof.
  unfold parseSegment.
  repeat match goal with |- context [if ?b then _ else _] => destruct b end;
    cbn [segments]; rewrite length_app; simpl; lia.
Qed.

Lemma parseSegment_names acc seg :
  params acc = declaredNames (segments acc) ->
  params (parseSegment acc seg) = declaredNames (segments (parseSegment acc seg)).
Proof.
  intros H. unfold parseSegment, declaredNames in *.
  repeat match goal with |- context [if ?b then _ else _] => destruct b end;
    cbn [segments params]; rewrite flat_map_app; cbn [flat_map type param];
    rewrite <- H, ?app_nil_r; reflexivity.
Qed.

Lemma parse_fold tokens acc :
  params acc = declaredNames (segments acc) ->
  let r := fold_left parseSegment tokens acc in
  List.length (segments r) = List.length (segments acc) + List.length tokens /\
  params r = declaredNames (segments r).
Proof.
  revert acc. induction tokens as [|t tokens IH]; intros acc H; simpl.
  - split; [lia | exact H].
  - destruct (IH (parseSegment acc t) (parseSegment_names acc t H)) as [Hl Hn].
    split; [|exact Hn].
    simpl in Hl. rewrite Hl, parseSegment_length. lia.
Qed.

(** The parser accepts what the specification's contract rejects. *)
Lemma parser_accepts_unnamed_marker :
  specParse "files/[...]" = InvalidSpecification /\
  specParse "users/[]" = InvalidSpecification /\
  specParse "[id]/[id]" = InvalidSpecification /\
  codeParse "files/[...]"
  = Segments [mkSegment static "files" None;
              mkSegment wildcard "[...]" (Some "")] /\
  codeParse "files/[...]" <> specParse "files/[...]".
Proof. repeat split. discriminate. Qed.

(** C7 (as amended).  [parseFilePath] has no failure path: on every
    specification it returns one segment for each non-empty token of the
    cleaned path, and lists in [params] every declared name in order,
    empty or repeated names included.  A catch-all marker without a name
    gives a wildcard segment with the empty parameter name, a dynamic
    marker without a name gives a dynamic segment with the empty
    parameter name, and a name declared twice is listed twice. *)
Theorem parseFilePath_never_rejects :
  (forall spec : string,
      List.length (segments (parseFilePath spec))
      = List.length (filter Js.truthy (Js.split "/" (cleanPath spec))) /\
      params (parseFilePath spec)
      = declaredNames (segments (parseFilePath spec))) /\
  parseFilePath "files/[...]"
  = mkParsed [mkSegment static "files" None;
              mkSegment wildcard "[...]" (Some "")] [""] true true /\
  parseFilePath "users/[]"
  = mkParsed [mkSegment static "users" None;
              mkSegment dynamic "[]" (Some "")] [""] true false /\
  parseFilePath "[id]/[id]"
  = mkParsed [mkSegment dynamic "[id]" (Some "id");
              mkSegment dynamic "[id]" (Some "id")] ["id"; "id"] true false.
Proof.
  split; [|repeat split].
  intros spec. unfold parseFilePath.
  apply (parse_fold _ (mkParsed [] [] false false)). reflexivity.
Qed.

End ParserClaims.

(* ================================================================== *)
(** * Middleware scoping *)
(* ================================================================== *)

Section MiddlewareFacts.

Import FileRouter Spec.

Variables Handler Middleware : Type.
Implicit Types (this : Router Handler Middleware).
Implicit Types (bindings : JsMap.t (list Middleware)).

Lemma scope_fold routePath bindings acc :
  fold_left (scopeStep routePath) bindings acc
  = (acc ++ applicableMiddleware routePath bindings)%list.
Proof.
  revert acc. unfold applicableMiddleware.
  induction bindings as [|[k l] bs IH]; intros acc; simpl.
  - now rewrite app_nil_r.
  - rewrite IH. unfold scopeStep, Js.startsWith. simpl.
    destruct (String.prefix k routePath); simpl; [now rewrite app_assoc | reflexivity].
Qed.

Lemma getMiddlewareForPath_spec this routePath :
  getMiddlewareForPath this routePath
  = applicableMiddleware routePath (middlewareMap this).
Proof.
  unfold getMiddlewareForPath. now rewrite scope_fold.
Qed.

(** Setting a key the route path does not start with changes nothing
    for that route path. *)
Lemma applicable_set_other routePath bindings k l :
  String.prefix k routePath = false ->
  applicableMiddleware routePath (JsMap.set bindings k l)
  = applicableMiddleware routePath bindings.
Proof.
  intros Hk. unfold applicableMiddleware.
  induction bindings as [|[k0 l0] bs IH]; simpl.
  - now rewrite Hk.
  - destruct (String.eqb_spec k0 k) as [->|]; simpl.
    + now rewrite Hk.
    + destruct (String.prefix k0 routePath); simpl; now rewrite IH.
Qed.

End MiddlewareFacts.

Section MiddlewareClaims.

Import FileRouter Spec.

(** C9.  The middleware of a route is the concatenation, in the order of
    the bindings and with nothing removed, of the lists of exactly the
    bindings whose prefix the route's pattern starts with as a string; a
    binding with prefix [/user] applies to the route [/users], and a
    middleware of two applicable bindings is listed twice. *)
Theorem middleware_is_prefix_concatenation
        (Handler Middleware : Type) (this : Router Handler Middleware)
        (routePath : string) :
  getMiddlewareForPath this routePath
  = applicableMiddleware routePath (middlewareMap this) /\
  (forall table (l : list Middleware),
      getMiddlewareForPath (mkRouter (Handler := Handler) table [("/user", l)])
                           "/users" = l) /\
  (forall table (mw : Middleware),
      getMiddlewareForPath
        (mkRouter (Handler := Handler) table [("/", [mw]); ("/users", [mw])])
        "/users" = [mw; mw]).
Proof.
  split; [apply getMiddlewareForPath_spec|].
  split; intros; reflexivity.
Qed.

End MiddlewareClaims.

(* ================================================================== *)
(** * Registration of routes *)
(* ================================================================== *)

Lemma string_app_cancel_r (a b s : string) : a ++ s = b ++ s -> a = b.
Proof.
  revert b. induction a as [|c a IH]; intros [|d b] H; simpl in H.
  - reflexivity.
  - exfalso. apply (f_equal String.length) in H. simpl in H.
    rewrite string_app_length in H. lia.
  - exfalso. apply (f_equal String.length) in H. simpl in H.
    rewrite string_app_length in H. lia.
  - inversion H; subst. f_equal. now apply IH.
Qed.

Lemma filter_perm {A : Type} (f : A -> bool) (l l' : list A) :
  Permutation l l' -> Permutation (filter f l) (filter f l').
Proof.
  induction 1 as [|x l l' _ IH|x y l|l l' l'' _ IH1 _ IH2]; simpl.
  - constructor.
  - destruct (f x); [now constructor | exact IH].
  - destruct (f x), (f y); try apply Permutation_refl. apply perm_swap.
  - eapply perm_trans; eassumption.
Qed.

Section RegistrationFacts.

Import FileRouter Spec.

Variables Handler Middleware : Type.
Implicit Types (this : Router Handler Middleware).
Implicit Types (module : string -> option Handler).

Lemma registerMethod_middlewareMap this file p module m :
  middlewareMap (registerMethod file p module this m) = middlewareMap this.
Proof. unfold registerMethod. now destruct (module m). Qed.

Lemma getMiddlewareForPath_ext this this' p :
  middlewareMap this = middlewareMap this' ->
  getMiddlewareForPath this p = getMiddlewareForPath this' p.
Proof. unfold getMiddlewareForPath. now intros ->. Qed.

Lemma fold_register_middlewareMap this file p module ms :
  middlewareMap (fold_left (registerMethod file p module) ms this)
  = middlewareMap this.
Proof.
  revert this. induction ms as [|m ms IH]; intros this; simpl; [reflexivity|].
  now rewrite IH, registerMethod_middlewareMap.
Qed.

Lemma registerMethod_wellKeyed this file p module m :
  wellKeyed this -> wellKeyed (registerMethod file p module this m).
Proof.
  intros [Hnd Hk]. unfold registerMethod.
  destruct (module m) as [h|]; [|now split].
  split; cbn [routes].
  - now apply keys_set_NoDup.
  - apply Forall_forall. intros [k r] Hin.
    apply in_set in Hin. destruct Hin as [[-> ->]|Hin]; [reflexivity|].
    rewrite Forall_forall in Hk. now apply Hk.
Qed.

Lemma fold_register_wellKeyed this file p module ms :
  wellKeyed this -> wellKeyed (fold_left (registerMethod file p module) ms this).
Proof.
  revert this. induction ms as [|m ms IH]; intros this H; simpl; [exact H|].
  now apply IH, registerMethod_wellKeyed.
Qed.

(** Registering other methods leaves the entry of a method alone. *)
Lemma fold_register_frame this file p module ms m :
  ~ In m ms ->
  JsMap.get (routes (fold_left (registerMethod file p module) ms this))
            (m ++ ":" ++ p)
  = JsMap.get (routes this) (m ++ ":" ++ p).
Proof.
  revert this. induction ms as [|m0 ms IH]; intros this Hnot; simpl; [reflexivity|].
  rewrite IH by (intros Hin; apply Hnot; now right).
  unfold registerMethod. destruct (module m0) as [h|]; [|reflexivity].
  cbn [routes]. apply get_set_other.
  intros E. apply string_app_cancel_r in E. apply Hnot. now left.
Qed.

(** After the loop, the entry of an exported method is the record built
    from this file and this handler. *)
Lemma fold_register_get this file p module ms m h :
  NoDup ms -> In m ms -> module m = Some h ->
  JsMap.get (routes (fold_left (registerMethod file p module) ms this))
            (m ++ ":" ++ p)
  = Some (routeInfoOf this file p m h).
Proof.
  revert this. induction ms as [|m0 ms IH]; intros this Hnd Hin Hm; [destruct Hin|].
  inversion Hnd as [|? ? Hnotin Hnd']; subst. simpl.
  destruct Hin as [->|Hin].
  - rewrite fold_register_frame by exact Hnotin.
    unfold registerMethod. rewrite Hm. cbn [routes]. apply get_set_same.
  - rewrite (IH _ Hnd' Hin Hm). f_equal. unfold routeInfoOf. f_equal.
    apply getMiddlewareForPath_ext, registerMethod_middlewareMap.
Qed.

(** Every table the router builds is well keyed: the empty one is, and
    both registration steps keep it so. *)
Lemma newRouter_wellKeyed : wellKeyed (newRouter (Handler := Handler) (Middleware := Middleware)).
Proof. split; constructor. Qed.

Lemma processApiRoute_wellKeyed this file rel module :
  wellKeyed this -> wellKeyed (processApiRoute this file rel module).
Proof. apply fold_register_wellKeyed. Qed.

Lemma processMiddleware_wellKeyed this rel dflt :
  wellKeyed this -> wellKeyed (processMiddleware this rel dflt).
Proof. unfold processMiddleware. now destruct dflt. Qed.

(** In a well-keyed table, the routes of one identity are exactly the
    entry under its key. *)
Lemma identity_unique (table : JsMap.t (RouteInfo Handler Middleware)) m p r :
  NoDup (JsMap.keys table) ->
  Forall (fun e => fst e = keyOf (snd e)) table ->
  JsMap.get table (m ++ ":" ++ p) = Some r ->
  hasIdentity m p r = true ->
  filter (hasIdentity m p) (JsMap.values table) = [r].
Proof.
  intros Hnd Hk Hget Hid.
  induction table as [|[k0 r0] table IH]; [discriminate|].
  inversion Hnd as [|? ? Hnotin Hnd']; subst.
  inversion Hk as [|? ? Hk0 Hk']; subst. simpl in Hk0.
  cbn [JsMap.get] in Hget. cbn [JsMap.values map snd filter].
  assert (Hnone : forall t : JsMap.t (RouteInfo Handler Middleware),
             Forall (fun e => fst e = keyOf (snd e)) t ->
             ~ In (m ++ ":" ++ p) (JsMap.keys t) ->
             filter (hasIdentity m p) (JsMap.values t) = []).
  { induction t as [|[k1 r1] t IHt]; intros Hkt Hn; [reflexivity|].
    inversion Hkt as [|? ? Hk1 Hkt']; subst. simpl in Hk1.
    cbn [JsMap.values map snd filter].
    destruct (hasIdentity m p r1) eqn:E.
    - exfalso. apply Hn. left. simpl. rewrite Hk1. unfold keyOf.
      unfold hasIdentity in E. apply andb_true_iff in E. destruct E as [E1 E2].
      apply String.eqb_eq in E1, E2. now rewrite E1, E2.
    - apply IHt; [exact Hkt'|]. intros Hin. apply Hn. now right. }
  revert Hget.
  destruct (String.eqb_spec k0 (m ++ ":" ++ p)) as [E|E]; intros Hget.
  - assert (Er : r0 = r) by congruence. subst r0. rewrite Hid. f_equal.
    apply Hnone; [exact Hk'|]. now rewrite <- E.
  - destruct (hasIdentity m p r0) eqn:E0.
    + exfalso. apply E. rewrite Hk0. unfold keyOf.
      unfold hasIdentity in E0. apply andb_true_iff in E0. destruct E0 as [E1 E2].
      apply String.eqb_eq in E1, E2. now rewrite E1, E2.
    + now apply IH.
Qed.

End RegistrationFacts.

(* ================================================================== *)
(** * What every table of the router satisfies *)
(* ================================================================== *)

Section TableFacts.

Import FileRouter Spec.

Variables Handler Middleware Component : Type.
Variable createPageHandler : Component -> string -> Handler.
Implicit Types (this : Router Handler Middleware).

Lemma set_Forall {V : Type} (Q : string * V -> Prop) (m : JsMap.t V) k v :
  Forall Q m -> Q (k, v) -> Forall Q (JsMap.set m k v).
Proof.
  intros Hm Hkv. apply Forall_forall. intros [k' v'] Hin.
  apply in_set in Hin. destruct Hin as [[-> ->]|Hin]; [exact Hkv|].
  rewrite Forall_forall in Hm. now apply Hm.
Qed.

Lemma registerMethod_known this file p module m :
  In m methods -> knownMethods this ->
  knownMethods (registerMethod file p module this m).
Proof.
  intros Hm H. unfold registerMethod, knownMethods.
  destruct (module m) as [h|]; [|exact H].
  cbn [routes]. now apply set_Forall.
Qed.

Lemma registerMethod_scored this file p module m :
  scored this -> scored (registerMethod file p module this m).
Proof.
  intros H. unfold registerMethod, scored.
  destruct (module m) as [h|]; [|exact H].
  cbn [routes]. now apply set_Forall.
Qed.

Lemma fold_register_known this file p module ms :
  (forall m, In m ms -> In m methods) -> knownMethods this ->
  knownMethods (fold_left (registerMethod file p module) ms this).
Proof.
  revert this. induction ms as [|m ms IH]; intros this Hms H; simpl; [exact H|].
  apply IH; [intros x Hx; apply Hms; now right|].
  apply registerMethod_known; [apply Hms; now left | exact H].
Qed.

Lemma fold_register_scored this file p module ms :
  scored this -> scored (fold_left (registerMethod file p module) ms this).
Proof.
  revert this. induction ms as [|m ms IH]; intros this H; simpl; [exact H|].
  now apply IH, registerMethod_scored.
Qed.

Lemma processPageRoute_invariants this file rel dflt :
  wellKeyed this /\ knownMethods this /\ scored this ->
  wellKeyed (processPageRoute createPageHandler this file rel dflt) /\
  knownMethods (processPageRoute createPageHandler this file rel dflt) /\
  scored (processPageRoute createPageHandler this file rel dflt).
Proof.
  intros ([Hnd Hk] & Hm & Hs). unfold processPageRoute.
  destruct dflt as [page|]; [|now repeat split].
  unfold wellKeyed, knownMethods, scored. cbn [routes].
  repeat split.
  - now apply keys_set_NoDup.
  - now apply set_Forall.
  - apply set_Forall; [exact Hm | left; reflexivity].
  - now apply set_Forall.
Qed.

(** Every table the router builds is well keyed, holds only the five
    methods, and stores with each route the score of its path. *)
Lemma Built_invariants this :
  Built createPageHandler this ->
  wellKeyed this /\ knownMethods this /\ scored this.
Proof.
  induction 1 as [|this file rel module _ (Hw & Hm & Hs)
                  |this file rel dflt _ IH
                  |this rel dflt _ (Hw & Hm & Hs)].
  - split; [split; constructor | split; constructor].
  - split; [|split].
    + now apply processApiRoute_wellKeyed.
    + now apply fold_register_known.
    + now apply fold_register_scored.
  - now apply processPageRoute_invariants.
  - unfold processMiddleware. now destruct dflt.
Qed.

Lemma StronglySorted_within {A : Type} (R R' : A -> A -> Prop) (l : list A) :
  (forall a b, In a l -> In b l -> R a b -> R' a b) ->
  StronglySorted R l -> StronglySorted R' l.
Proof.
  intros Himp Hs. induction Hs as [|a l Hs IH Hall]; [constructor|].
  constructor.
  - apply IH. intros x y Hx Hy. apply Himp; now right.
  - rewrite Forall_forall in *. intros b Hb.
    apply Himp; [now left | now right | now apply Hall].
Qed.

(** The sorted table of a scored router descends in the score of the
    paths. *)
Lemma sortedRoutes_byScore this :
  scored this -> StronglySorted byScore (sortedRoutes this).
Proof.
  intros Hs.
  apply StronglySorted_within with (R := notLower); [|apply sortRoutes_sorted].
  assert (Hin : forall r, In r (sortedRoutes this) ->
                          priority r = calculatePriority (path r)).
  { intros r Hr.
    apply (Permutation_in _ (Permutation_sym (sortRoutes_perm _ _ _))) in Hr.
    unfold JsMap.values in Hr. apply in_map_iff in Hr.
    destruct Hr as ([k r'] & <- & Hr). unfold scored in Hs.
    rewrite Forall_forall in Hs. exact (Hs _ Hr). }
  intros a b Ha Hb. unfold notLower, byScore.
  now rewrite (Hin a Ha), (Hin b Hb).
Qed.

Lemma registerRoute_identity (r : RouteInfo Handler Middleware) m p :
  In m methods -> In (method r) methods ->
  map handlerOfCall (filter (registers m p) (registerRoute r))
  = if hasIdentity m p r then [Some (handler r)] else [].
Proof.
  intros Hm Hr. unfold registerRoute, hasIdentity.
  destruct (Nat.ltb 0 (List.length (middleware r)));
    cbn [app filter registers];
    unfold methods in Hm, Hr;
    destruct Hr as [E|[E|[E|[E|[E|[]]]]]]; rewrite <- E;
    destruct Hm as [F|[F|[F|[F|[F|[]]]]]]; rewrite <- F;
    match goal with
    | |- context [Js.toUpperCase ?s] =>
        let v := eval vm_compute in (Js.toUpperCase s) in
        change (Js.toUpperCase s) with v
    end;
    cbn; destruct (String.eqb (path r) p); reflexivity.
Qed.

(** The handler registrations for one identity are the handlers of the
    routes of that identity, in the order of the table. *)
Lemma registerRoutes_identity (l : list (RouteInfo Handler Middleware)) m p :
  In m methods ->
  Forall (fun r => In (method r) methods) l ->
  map handlerOfCall (filter (registers m p) (registerRoutes l))
  = map (fun r => Some (handler r)) (filter (hasIdentity m p) l).
Proof.
  intros Hm Hl. induction Hl as [|r l Hr _ IH]; [reflexivity|].
  unfold registerRoutes in *. cbn [flat_map].
  rewrite filter_app, map_app, IH, (registerRoute_identity r m p Hm Hr).
  cbn [filter]. now destruct (hasIdentity m p r).
Qed.

Lemma sortedRoutes_known this :
  knownMethods this ->
  Forall (fun r => In (method r) methods) (sortedRoutes this).
Proof.
  intros Hk. apply Forall_forall. intros r Hr.
  apply (Permutation_in _ (Permutation_sym (sortRoutes_perm _ _ _))) in Hr.
  unfold JsMap.values in Hr. apply in_map_iff in Hr.
  destruct Hr as ([k r'] & <- & Hr). unfold knownMethods in Hk.
  rewrite Forall_forall in Hk. exact (Hk _ Hr).
Qed.

End TableFacts.

Section ScoreOrderClaims.

Import RouteUtils FileRouter Spec Examples.

(** C1 (as amended).  On every canonical pattern, [calculateRoutePriority]
    of route-utils is 1000 plus 10 per segment, minus 100 per Dynamic
    segment, minus 200 per CatchAll segment; [calculatePriority] of the
    file router is 1000 plus 10 per segment and 10 more for the leading
    separator (20 more for the root), minus 100 per Dynamic or CatchAll
    segment.  The sorted table descends in the stored priority; in every
    table the router builds, by any sequence of API route, page route
    and middleware registrations, the stored priority of a route is
    [calculatePriority] of its path, so the table handed to registration
    descends in that score. *)
Theorem priority_of_canonical_pattern (segs : list RouteSegment) :
  forallb canonicalSegment segs = true ->
  calculateRoutePriority (canonicalPattern segs) = specScore segs /\
  calculatePriority (canonicalPattern segs)
  = (1000 + 10 * (Z.max 1 (Z.of_nat (List.length segs)) + 1)
     - 100 * (countType dynamic segs + countType wildcard segs))%Z /\
  (forall (Handler Middleware : Type) (this : Router Handler Middleware),
      StronglySorted notLower (sortedRoutes this)) /\
  (forall (Handler Middleware Component : Type)
          (createPageHandler : Component -> string -> Handler)
          (this : Router Handler Middleware),
      Built createPageHandler this ->
      (forall r, In r (sortedRoutes this) ->
                 priority r = calculatePriority (path r)) /\
      StronglySorted byScore (sortedRoutes this)).
Proof.
  intros H. split; [now apply routePriority_spec|].
  split; [now apply filePriority_canonical|].
  split; [intros Handler Middleware this; apply sortRoutes_sorted|].
  intros Handler Middleware Component createPageHandler this Hb.
  destruct (Built_invariants _ _ _ createPageHandler this Hb) as (_ & _ & Hs).
  split; [|now apply sortedRoutes_byScore].
  intros r Hr.
  apply (Permutation_in _ (Permutation_sym (sortRoutes_perm _ _ _))) in Hr.
  unfold JsMap.values in Hr. apply in_map_iff in Hr.
  destruct Hr as ([k r'] & <- & Hr). unfold scored in Hs.
  rewrite Forall_forall in Hs. exact (Hs _ Hr).
Qed.

Lemma priority_of_canonical_pattern_files_slug :
  forallb canonicalSegment filesSlug = true /\
  calculateRoutePriority "/files/*slug" = 820%Z /\
  calculatePriority "/files/*slug" = 930%Z /\
  StronglySorted byScore (sortedRoutes tableBA).
Proof.
  assert (H : forallb canonicalSegment filesSlug = true) by reflexivity.
  destruct (priority_of_canonical_pattern filesSlug H) as (H1 & H2 & _ & H4).
  split; [exact H|]. split; [exact H1|]. split; [exact H2|].
  assert (Hb : Built (fun (c : nat) (_ : string) => c) tableBA).
  { unfold tableBA. apply Built_api, Built_api, Built_new. }
  exact (proj2 (H4 nat nat nat (fun c _ => c) tableBA Hb)).
Defined.

End ScoreOrderClaims.

Section RegistrationClaims.

Import FileRouter Spec Examples.

Lemma methods_NoDup : NoDup methods.
Proof.
  unfold methods.
  repeat (constructor; [simpl; intuition discriminate|]). constructor.
Qed.

(** C8.  Two registrations under one method and one canonical pattern
    raise no error.  The first stores its record under the key; the
    second replaces it: the key then holds the record of the second file
    and handler, no key occurs twice, and the sorted table holds exactly
    one route of that identity, the second one.  When the table holds
    only the five methods, as every table the router builds does,
    [registerRoutes] hands the application exactly one handler for that
    method and path, the second handler: no dispatch over what is
    registered can reach the first. *)
Theorem reregistration_replaces
        (Handler Middleware : Type) (this : Router Handler Middleware)
        (file1 file2 rel1 rel2 : string)
        (module1 module2 : string -> option Handler)
        (m : string) (h1 h2 : Handler) :
  wellKeyed this ->
  convertFilePathToRoute rel1 = convertFilePathToRoute rel2 ->
  In m methods -> module1 m = Some h1 -> module2 m = Some h2 ->
  let p := convertFilePathToRoute rel2 in
  let first := processApiRoute this file1 rel1 module1 in
  let second := processApiRoute first file2 rel2 module2 in
  JsMap.get (routes first) (m ++ ":" ++ p) = Some (routeInfoOf this file1 p m h1) /\
  JsMap.get (routes second) (m ++ ":" ++ p) = Some (routeInfoOf this file2 p m h2) /\
  wellKeyed second /\
  filter (hasIdentity m p) (sortedRoutes second) = [routeInfoOf this file2 p m h2] /\
  (knownMethods this ->
   map handlerOfCall
       (filter (registers m p) (registerRoutes (sortedRoutes second)))
   = [Some h2]).
Proof.
  intros Hwf Hrel Hm H1 H2 p first second.
  assert (Hfirst : wellKeyed first) by (now apply fold_register_wellKeyed).
  assert (Hsecond : wellKeyed second) by (now apply fold_register_wellKeyed).
  assert (Hmw : middlewareMap first = middlewareMap this)
    by apply fold_register_middlewareMap.
  assert (G1 : JsMap.get (routes first) (m ++ ":" ++ p)
               = Some (routeInfoOf this file1 p m h1)).
  { unfold first, processApiRoute. rewrite Hrel. fold p.
    now apply fold_register_get; [apply methods_NoDup| |]. }
  assert (G2 : JsMap.get (routes second) (m ++ ":" ++ p)
               = Some (routeInfoOf this file2 p m h2)).
  { unfold second, processApiRoute. fold p.
    rewrite (fold_register_get _ _ first file2 p module2 methods m h2
               methods_NoDup Hm H2).
    f_equal. unfold routeInfoOf. f_equal.
    now apply getMiddlewareForPath_ext. }
  assert (Hfilter : filter (hasIdentity m p) (sortedRoutes second)
                    = [routeInfoOf this file2 p m h2]).
  { destruct Hsecond as [Hnd Hk].
    assert (Hid : hasIdentity m p (routeInfoOf this file2 p m h2) = true).
    { unfold hasIdentity, routeInfoOf. cbn [method path].
      now rewrite !String.eqb_refl. }
    pose proof (identity_unique _ _ _ m p _ Hnd Hk G2 Hid) as Hone.
    apply Permutation_length_1_inv. rewrite <- Hone.
    apply filter_perm, sortRoutes_perm. }
  split; [exact G1|]. split; [exact G2|]. split; [exact Hsecond|].
  split; [exact Hfilter|].
  intros Hknown.
  assert (Hk2 : knownMethods second).
  { unfold second, first, processApiRoute.
    apply fold_register_known; [auto|].
    apply fold_register_known; [auto | exact Hknown]. }
  rewrite (registerRoutes_identity _ _ _ m p Hm
             (sortedRoutes_known _ _ second Hk2)).
  now rewrite Hfilter.
Qed.

Lemma reregistration_replaces_users :
  JsMap.get (routes tableTwice) "GET:/v1/users"
  = Some (routeInfoOf newRouter "api/v1/(admin)/users/route.ts" "/v1/users" "GET" 2) /\
  filter (hasIdentity "GET" "/v1/users") (sortedRoutes tableTwice)
  = [routeInfoOf newRouter "api/v1/(admin)/users/route.ts" "/v1/users" "GET" 2] /\
  map handlerOfCall
      (filter (registers "GET" "/v1/users")
              (registerRoutes (sortedRoutes tableTwice)))
  = [Some 2].
Proof.
  assert (Hwf : wellKeyed (newRouter (Handler := nat) (Middleware := nat))).
  { split; constructor. }
  assert (Hrel : convertFilePathToRoute "v1/users/route.ts"
                 = convertFilePathToRoute "v1/(admin)/users/route.ts")
    by reflexivity.
  assert (Hm : In "GET" methods) by (left; reflexivity).
  destruct (reregistration_replaces nat nat newRouter
              "api/v1/users/route.ts" "api/v1/(admin)/users/route.ts"
              "v1/users/route.ts" "v1/(admin)/users/route.ts"
              (exportsGet 1) (exportsGet 2) "GET" 1 2
              Hwf Hrel Hm eq_refl eq_refl) as (_ & G & _ & F & R).
  assert (Hk : knownMethods (newRouter (Handler := nat) (Middleware := nat))).
  { constructor. }
  split; [exact G|]. split; [exact F | exact (R Hk)].
Defined.

End RegistrationClaims.

(* ================================================================== *)
(** * Replacement under a fixed tail *)
(* ================================================================== *)

Section TailFacts.

Import Spec.

Lemma prefix_length (p s : string) :
  String.prefix p s = true -> String.length p <= String.length s.
Proof.
  revert s. induction p as [|c p IH]; intros [|d s]; simpl; try lia; try discriminate.
  destruct (ascii_dec c d); [|discriminate].
  intros H. apply IH in H. lia.
Qed.

Lemma prefix_app (p a b : string) :
  String.prefix p a = true -> String.prefix p (a ++ b) = true.
Proof.
  revert a. induction p as [|c p IH]; intros [|d a]; simpl; auto; try discriminate.
  - now destruct b.
  - destruct (ascii_dec c d); [apply IH | discriminate].
Qed.

Lemma prefix_app_inv (p a b : string) :
  String.prefix p (a ++ b) = true -> String.length p <= String.length a ->
  String.prefix p a = true.
Proof.
  revert a. induction p as [|c p IH]; intros [|d a]; simpl; auto; try lia.
  destruct (ascii_dec c d); [|discriminate].
  intros H Hl. apply IH; [exact H | lia].
Qed.

Lemma drop_length (n : nat) (s : string) :
  String.length (Js.drop n s) = String.length s - n.
Proof.
  revert s. induction n as [|n IH]; intros [|c s]; simpl; try lia. apply IH.
Qed.

Lemma drop_app (n : nat) (a b : string) :
  n <= String.length a -> Js.drop n (a ++ b) = Js.drop n a ++ b.
Proof.
  revert a. induction n as [|n IH]; intros [|c a]; simpl; try reflexivity; try lia.
  intros H. apply IH. lia.
Qed.

Lemma drop_app_ge (n : nat) (a b : string) :
  String.length a <= n -> Js.drop n (a ++ b) = Js.drop (n - String.length a) b.
Proof.
  revert n. induction a as [|c a IH]; intros n H; simpl in *.
  - now rewrite Nat.sub_0_r.
  - destruct n as [|n]; [lia|]. simpl. apply IH. lia.
Qed.

Lemma freeOf_drop c n s : freeOf c s -> freeOf c (Js.drop n s).
Proof.
  unfold freeOf. revert s. induction n as [|n IH]; intros [|d s]; simpl; auto.
  intros H. apply IH. lia.
Qed.

Lemma span_free c s : freeOf c s -> Js.span (Js.isNot c) s = (s, "").
Proof.
  unfold freeOf. induction s as [|d s IH]; simpl; [reflexivity|].
  destruct (Js.isNot c d); simpl; [|discriminate].
  intros H. now rewrite (IH H).
Qed.

Lemma span_concat ok s :
  fst (Js.span ok s) ++ snd (Js.span ok s) = s.
Proof.
  induction s as [|d s IH]; simpl; [reflexivity|].
  destruct (ok d); [|reflexivity].
  destruct (Js.span ok s) as [run rest]. simpl in *. now rewrite IH.
Qed.

(** The run before the closing character is the same with a tail free
    of that character appended; only an unclosed run grows. *)
Lemma span_app_free c x b :
  freeOf c b ->
  Js.span (Js.isNot c) (x ++ b)
  = match Js.span (Js.isNot c) x with
    | (run, EmptyString) => (run ++ b, EmptyString)
    | (run, rest) => (run, rest ++ b)
    end.
Proof.
  intros Hb. induction x as [|d x IH]; simpl.
  - now rewrite span_free.
  - destruct (Js.isNot c d); [|reflexivity].
    rewrite IH. destruct (Js.span (Js.isNot c) x) as [run [|e rest]]; reflexivity.
Qed.

(** A delimited expression sees nothing of a tail free of its closing
    character. *)
Lemma delimited_app o c a b :
  freeOf c b -> Js.re_delimited o c (a ++ b) = Js.re_delimited o c a.
Proof.
  intros Hb. unfold Js.re_delimited.
  destruct (String.prefix o a) eqn:Ha.
  - rewrite (prefix_app _ _ _ Ha).
    rewrite drop_app by now apply prefix_length.
    rewrite (span_app_free c _ b Hb).
    destruct (Js.span (Js.isNot c) (Js.drop (String.length o) a))
      as [run [|e rest]].
    + now destruct (run ++ b), run.
    + reflexivity.
  - destruct (String.prefix o (a ++ b)) eqn:Hab; [|reflexivity].
    destruct (Nat.le_gt_cases (String.length o) (String.length a)) as [Hl|Hl].
    + rewrite (prefix_app_inv _ _ _ Hab Hl) in Ha. discriminate.
    + rewrite drop_app_ge by lia.
      rewrite (span_free c _ (freeOf_drop c _ b Hb)).
      now destruct (Js.drop (String.length o - String.length a) b).
Qed.

Lemma delimited_span o c a capt n :
  Js.re_delimited o c a = Some (capt, n) -> n <= String.length a.
Proof.
  unfold Js.re_delimited.
  destruct (String.prefix o a) eqn:Ha; [|discriminate].
  pose proof (span_concat (Js.isNot c) (Js.drop (String.length o) a)) as Hc.
  destruct (Js.span (Js.isNot c) (Js.drop (String.length o) a))
    as [[|r run] [|e rest]]; try discriminate.
  intros H. inversion H; subst. simpl in Hc.
  apply (f_equal String.length) in Hc.
  rewrite drop_length in Hc. simpl in Hc. rewrite string_app_length in Hc.
  simpl in *. apply prefix_length in Ha. lia.
Qed.

(** A global replace passes over a tail it cannot match in. *)
Lemma replaceAllFrom_app (m : Js.matcher) rep b :
  (forall a, m (a ++ b) = m a) ->
  (forall a capt n, m a = Some (capt, n) -> n <= String.length a) ->
  Js.replaceAllFrom m rep 0 b = b ->
  forall a skip, skip <= String.length a ->
    Js.replaceAllFrom m rep skip (a ++ b) = Js.replaceAllFrom m rep skip a ++ b.
Proof.
  intros Happ Hspan Hb. induction a as [|c a IH]; intros skip Hs.
  - simpl in Hs. assert (skip = 0) by lia. subst. exact Hb.
  - change (String c a ++ b) with (String c (a ++ b)).
    cbn [Js.replaceAllFrom]. destruct skip as [|k].
    + change (String c (a ++ b)) with (String c a ++ b). rewrite Happ.
      destruct (m (String c a)) as [[capt [|n]]|] eqn:E.
      * simpl. now rewrite IH by lia.
      * apply Hspan in E. simpl in E.
        rewrite IH by lia. now rewrite string_app_assoc.
      * simpl. now rewrite IH by lia.
    + simpl in Hs. apply IH. lia.
Qed.

Lemma delimited_keepsTail o c rep b :
  freeOf c b ->
  Js.replaceAll (Js.re_delimited o c) rep b = b ->
  keepsTail b (Js.replaceAll (Js.re_delimited o c) rep).
Proof.
  intros Hb Hid a. exists (Js.replaceAll (Js.re_delimited o c) rep a).
  unfold Js.replaceAll. apply replaceAllFrom_app; try lia.
  - intros x. now apply delimited_app.
  - apply delimited_span.
  - exact Hid.
Qed.

(** A replace of an expression anchored at the end passes over whatever
    precedes a tail that is long enough. *)
Lemma replaceFirst_app (m : Js.matcher) rep n a b :
  boundedBy n m -> n <= String.length b ->
  Js.replaceFirst m rep (a ++ b) = a ++ Js.replaceFirst m rep b.
Proof.
  intros Hm Hn. induction a as [|c a IH]; [reflexivity|].
  change (String c a ++ b) with (String c (a ++ b)).
  cbn [Js.replaceFirst]. rewrite Hm.
  - now rewrite IH.
  - simpl. rewrite string_app_length. lia.
Qed.

Lemma end_bounded lit : boundedBy (String.length lit) (Js.re_end lit).
Proof.
  intros s H. unfold Js.re_end. rewrite string_eqb_length; [reflexivity | lia].
Qed.

Lemma end_any_bounded n lits :
  Forall (fun lit => String.length lit <= n) lits ->
  boundedBy n (Js.re_end_any lits).
Proof.
  induction 1 as [|lit lits Hl _ IH]; intros s Hs; simpl; [reflexivity|].
  rewrite end_bounded by lia. now apply IH.
Qed.

Lemma anchored_keepsTail (m : Js.matcher) rep n b :
  boundedBy n m -> n <= String.length b ->
  Js.replaceFirst m rep b = b ->
  keepsTail b (Js.replaceFirst m rep).
Proof.
  intros Hm Hn Hid a. exists a.
  now rewrite (replaceFirst_app m rep n a b Hm Hn), Hid.
Qed.

Lemma keepsTail_compose b f g :
  keepsTail b f -> keepsTail b g -> keepsTail b (fun s => g (f s)).
Proof.
  intros Hf Hg a. destruct (Hf a) as [a1 E1]. destruct (Hg a1) as [a2 E2].
  exists a2. now rewrite E1.
Qed.

Lemma backslash_head c s :
  Js.re_backslash (String c s)
  = if Ascii.eqb c "\" then Some (EmptyString, 1) else None.
Proof.
  destruct c as [[] [] [] [] [] [] [] []]; reflexivity.
Qed.

Lemma replace_backslash_app a b :
  Js.replaceAll Js.re_backslash (fun _ => "/") (a ++ b)
  = Js.replaceAll Js.re_backslash (fun _ => "/") a
    ++ Js.replaceAll Js.re_backslash (fun _ => "/") b.
Proof.
  unfold Js.replaceAll. induction a as [|c a IH]; [reflexivity|].
  change (String c a ++ b) with (String c (a ++ b)).
  cbn [Js.replaceAllFrom]. rewrite !backslash_head.
  destruct (Ascii.eqb c "\"); simpl; now rewrite IH.
Qed.

End TailFacts.

(* ================================================================== *)
(** * Scope keys of middleware files *)
(* ================================================================== *)

Section ScopeKeyFacts.

Import FileRouter Spec.

Lemma extension_bounded : boundedBy 4 Js.re_extension.
Proof.
  apply end_any_bounded. repeat constructor.
Qed.

(** The conversion leaves an inert tail at the end of the route. *)
Lemma convert_keeps_tail (dir t b : string) :
  inertTail t b ->
  exists scope, convertFilePathToRoute (dir ++ t) = scope ++ b.
Proof.
  intros (Hbs & Hext & Ht & Hb & Hpage & Hroute & Hindex & Hsq & Hpar
          & Hbr & Hdots & Hgrp & Hslash).
  unfold convertFilePathToRoute. cbv zeta.
  rewrite replace_backslash_app, Hbs.
  set (D := Js.replaceAll Js.re_backslash (fun _ => "/") dir).
  rewrite (replaceFirst_app Js.re_extension (fun _ => "") 4 D t
             extension_bounded Ht), Hext.
  assert (Hf : keepsTail b
     (fun s =>
        Js.replaceAll Js.re_group (fun _ => "")
          (Js.replaceAll Js.re_bracket_dots (fun p => "*" ++ p)
            (Js.replaceAll Js.re_bracket (fun p => ":" ++ p)
              (Js.replaceFirst (Js.re_end "/index") (fun _ => "")
                (Js.replaceFirst (Js.re_end "/route") (fun _ => "")
                  (Js.replaceFirst (Js.re_end "/page") (fun _ => "") s))))))).
  { apply (keepsTail_compose b
             (fun s => Js.replaceAll Js.re_bracket_dots (fun p => "*" ++ p)
                (Js.replaceAll Js.re_bracket (fun p => ":" ++ p)
                  (Js.replaceFirst (Js.re_end "/index") (fun _ => "")
                    (Js.replaceFirst (Js.re_end "/route") (fun _ => "")
                      (Js.replaceFirst (Js.re_end "/page") (fun _ => "") s)))))
             (Js.replaceAll Js.re_group (fun _ => "")));
      [|now apply delimited_keepsTail].
    apply (keepsTail_compose b
             (fun s => Js.replaceAll Js.re_bracket (fun p => ":" ++ p)
                  (Js.replaceFirst (Js.re_end "/index") (fun _ => "")
                    (Js.replaceFirst (Js.re_end "/route") (fun _ => "")
                      (Js.replaceFirst (Js.re_end "/page") (fun _ => "") s))))
             (Js.replaceAll Js.re_bracket_dots (fun p => "*" ++ p)));
      [|now apply delimited_keepsTail].
    apply (keepsTail_compose b
             (fun s => Js.replaceFirst (Js.re_end "/index") (fun _ => "")
                    (Js.replaceFirst (Js.re_end "/route") (fun _ => "")
                      (Js.replaceFirst (Js.re_end "/page") (fun _ => "") s)))
             (Js.replaceAll Js.re_bracket (fun p => ":" ++ p)));
      [|now apply delimited_keepsTail].
    apply (keepsTail_compose b
             (fun s => Js.replaceFirst (Js.re_end "/route") (fun _ => "")
                      (Js.replaceFirst (Js.re_end "/page") (fun _ => "") s))
             (Js.replaceFirst (Js.re_end "/index") (fun _ => "")));
      [|apply (anchored_keepsTail _ _ 6); [exact (end_bounded "/index") | exact Hb | exact Hindex]].
    apply (keepsTail_compose b
             (Js.replaceFirst (Js.re_end "/page") (fun _ => ""))
             (Js.replaceFirst (Js.re_end "/route") (fun _ => "")));
      [|apply (anchored_keepsTail _ _ 6); [exact (end_bounded "/route") | exact Hb | exact Hroute]].
    apply (anchored_keepsTail _ _ 5);
      [exact (end_bounded "/page") | lia | exact Hpage]. }
  destruct (Hf D) as [X E]. cbv beta in E. rewrite E.
  assert (Hlen : forall Y, 6 <= String.length (Y ++ b))
    by (intros Y; rewrite string_app_length; lia).
  rewrite (string_eqb_length (X ++ b) "page") by (specialize (Hlen X); simpl; lia).
  rewrite (string_eqb_length (X ++ b) "/page") by (specialize (Hlen X); simpl; lia).
  cbn [orb].
  assert (Hend : forall Y,
             (if String.eqb (Y ++ b) "/" then "/"
              else Js.replaceFirst (Js.re_end "/") (fun _ => "") (Y ++ b))
             = Y ++ b).
  { intros Y.
    rewrite (string_eqb_length (Y ++ b) "/") by (specialize (Hlen Y); simpl; lia).
    rewrite (replaceFirst_app (Js.re_end "/") (fun _ => "") 1 Y b);
      [now rewrite Hslash | exact (end_bounded "/") | lia]. }
  destruct (Js.startsWith (X ++ b) "/").
  - exists X. apply Hend.
  - exists ("/" ++ X).
    change ("/" ++ X ++ b) with (("/" ++ X) ++ b). apply Hend.
Qed.

End ScopeKeyFacts.

Section ScopeKeyClaims.

Import FileRouter Spec.

Lemma processMiddleware_frame
      (Handler Middleware : Type) (this : Router Handler Middleware)
      (rel : string) (mw : Middleware) (routePath : string) :
  Js.startsWith routePath (convertFilePathToRoute rel) = false ->
  getMiddlewareForPath (processMiddleware this rel (Some mw)) routePath
  = getMiddlewareForPath this routePath.
Proof.
  intros H. rewrite !getMiddlewareForPath_spec.
  unfold processMiddleware. cbn [middlewareMap].
  now apply applicable_set_other.
Qed.

(** C10.  A middleware file [dir/_middleware.ext] or [dir/middleware.ext]
    is filed under a scope key that keeps the file name as its last
    segment: [users/_middleware.ts] gives [/users/_middleware].  The
    binding changes the middleware of a route path only if the route path
    starts with that key; it never changes the middleware of
    [/users/new]. *)
Theorem middleware_key_keeps_file_name (dir name ext : string) :
  In name ["_middleware"; "middleware"] ->
  In ext ["ts"; "tsx"; "js"; "jsx"] ->
  let rel := dir ++ "/" ++ name ++ "." ++ ext in
  (exists scope, convertFilePathToRoute rel = scope ++ "/" ++ name) /\
  (forall (Handler Middleware : Type) (this : Router Handler Middleware)
          (mw : Middleware) (routePath : string),
      Js.startsWith routePath (convertFilePathToRoute rel) = false ->
      getMiddlewareForPath (processMiddleware this rel (Some mw)) routePath
      = getMiddlewareForPath this routePath) /\
  (forall (Handler Middleware : Type) (this : Router Handler Middleware)
          (mw : Middleware),
      getMiddlewareForPath (processMiddleware this rel (Some mw)) "/users/new"
      = getMiddlewareForPath this "/users/new") /\
  convertFilePathToRoute "users/_middleware.ts" = "/users/_middleware".
Proof.
  intros Hname Hext rel.
  assert (Hkey : exists scope, convertFilePathToRoute rel = scope ++ "/" ++ name).
  { unfold rel.
    destruct Hname as [<-|[<-|[]]];
      destruct Hext as [<-|[<-|[<-|[<-|[]]]]];
      cbn [String.append];
      apply convert_keeps_tail;
      unfold inertTail, freeOf; repeat split; try reflexivity; simpl; lia. }
  split; [exact Hkey|].
  split; [intros; now apply processMiddleware_frame|].
  split; [|reflexivity].
  intros Handler Middleware this mw. apply processMiddleware_frame.
  destruct Hkey as [scope ->].
  unfold Js.startsWith.
  destruct (String.prefix (scope ++ "/" ++ name) "/users/new") eqn:E; [|reflexivity].
  apply prefix_length in E. rewrite string_app_length in E.
  destruct Hname as [<-|[<-|[]]]; simpl in E; lia.
Qed.

Lemma middleware_key_keeps_file_name_users :
  (exists scope,
      convertFilePathToRoute "users/_middleware.ts" = scope ++ "/_middleware") /\
  forall (this : Router nat nat) (mw : nat),
    getMiddlewareForPath (processMiddleware this "users/_middleware.ts" (Some mw))
                         "/users/new"
    = getMiddlewareForPath this "/users/new".
Proof.
  assert (Hname : In "_middleware" ["_middleware"; "middleware"])
    by (left; reflexivity).
  assert (Hext : In "ts" ["ts"; "tsx"; "js"; "jsx"]) by (left; reflexivity).
  destruct (middleware_key_keeps_file_name "users" "_middleware" "ts" Hname Hext)
    as (Hkey & _ & Hnew & _).
  split; [exact Hkey | exact (Hnew nat nat)].
Defined.

End ScopeKeyClaims.

(* ================================================================== *)
(** * File names and extensions *)
(* ================================================================== *)

Section FileNameFacts.

Import FileRouter.

Lemma lastIndex_none c s :
  Js.countChars (Ascii.eqb c) s = 0 -> Js.lastIndex c s = None.
Proof.
  induction s as [|d s IH]; [reflexivity|].
  cbn [Js.countChars Js.lastIndex]. rewrite (Ascii.eqb_sym d c).
  destruct (Ascii.eqb c d); [discriminate|].
  intros H. now rewrite (IH H).
Qed.

Lemma lastIndex_app_last c a b :
  Js.countChars (Ascii.eqb c) b = 0 ->
  Js.lastIndex c (a ++ String c b) = Some (String.length a).
Proof.
  intros Hb. induction a as [|d a IH].
  - cbn [String.append Js.lastIndex]. rewrite (lastIndex_none c b Hb).
    now rewrite Ascii.eqb_refl.
  - change (String d a ++ String c b) with (String d (a ++ String c b)).
    cbn [Js.lastIndex]. now rewrite IH.
Qed.

Lemma drop_app_length a b : Js.drop (String.length a) (a ++ b) = b.
Proof. induction a as [|c a IH]; [now destruct b | exact IH]. Qed.

Lemma substring_app_prefix a b :
  String.substring 0 (String.length a) (a ++ b) = a.
Proof.
  induction a as [|c a IH]; simpl; [now destruct b | now rewrite IH].
Qed.

Lemma substring1_at a b :
  Js.substring1 (Z.of_nat (String.length a)) (a ++ b) = b.
Proof.
  unfold Js.substring1, Js.clampIndex.
  rewrite Nat2Z.id, string_app_length, Nat.min_l by lia.
  apply drop_app_length.
Qed.

Lemma substring2_prefix a b :
  Js.substring2 0 (Z.of_nat (String.length a)) (a ++ b) = a.
Proof.
  unfold Js.substring2, Js.clampIndex.
  rewrite Nat2Z.id, string_app_length.
  change (Z.to_nat 0) with 0.
  rewrite (Nat.min_l (String.length a)) by lia.
  rewrite !Nat.min_0_l, Nat.max_0_l, Nat.sub_0_r.
  apply substring_app_prefix.
Qed.

(** X1.  A path that ends with a file name [stem.e], where the stem has
    no separator and [e] has neither a separator nor a dot, is taken
    apart into the stem and the extension [.e], with or without a
    directory before it; dots inside the stem stay in the stem. *)
Theorem file_name_and_extension
        (sep : ascii) (dir stem e : string) :
  sep <> "."%char ->
  Js.countChars (Ascii.eqb sep) stem = 0 ->
  Js.countChars (Ascii.eqb sep) e = 0 ->
  Js.countChars (Ascii.eqb ".") e = 0 ->
  let file := stem ++ "." ++ e in
  getFileName sep (dir ++ String sep file) = stem /\
  getFileExtension (dir ++ String sep file) = "." ++ e /\
  getFileName sep file = stem /\
  getFileExtension file = "." ++ e.
Proof.
  intros Hsep Hstem He Hdot file.
  assert (Hfile : Js.countChars (Ascii.eqb sep) file = 0).
  { unfold file. rewrite countChars_app. cbn [String.append Js.countChars].
    destruct (Ascii.eqb_spec sep ".") as [E|_]; [contradiction | lia]. }
  assert (Hname : Js.substring2 0 (Js.lastIndexOf "." file) file = stem).
  { unfold Js.lastIndexOf, file. change ("." ++ e) with (String "." e).
    rewrite (lastIndex_app_last "." stem e Hdot). apply substring2_prefix. }
  assert (Hext : forall pre,
             getFileExtension (pre ++ file) = "." ++ e).
  { intros pre. unfold getFileExtension, Js.lastIndexOf, file.
    change ("." ++ e) with (String "." e).
    rewrite <- string_app_assoc.
    rewrite (lastIndex_app_last "." (pre ++ stem) e Hdot).
    apply substring1_at. }
  repeat split.
  - unfold getFileName, Js.lastIndexOf.
    rewrite (lastIndex_app_last sep dir file Hfile).
    replace (Z.of_nat (String.length dir) + 1)%Z
      with (Z.of_nat (String.length (dir ++ String sep ""))).
    2:{ rewrite string_app_length. simpl. lia. }
    change (dir ++ String sep file) with (dir ++ (String sep "" ++ file)).
    rewrite <- string_app_assoc, substring1_at. exact Hname.
  - change (dir ++ String sep file) with (dir ++ (String sep "" ++ file)).
    rewrite <- string_app_assoc. apply Hext.
  - unfold getFileName, Js.lastIndexOf.
    rewrite (lastIndex_none sep file Hfile).
    change (Js.substring1 (-1 + 1) file) with file. exact Hname.
  - apply (Hext "").
Qed.

Lemma file_name_and_extension_page :
  getFileName "/" "app/users/page.test.tsx" = "page.test" /\
  getFileExtension "app/users/page.test.tsx" = ".tsx".
Proof.
  assert (Hsep : "/"%char <> "."%char) by discriminate.
  destruct (file_name_and_extension "/" "app/users" "page.test" "tsx"
              Hsep eq_refl eq_refl eq_refl) as (H1 & H2 & _).
  split; [exact H1 | exact H2].
Defined.

Lemma substring_0_0 s : String.substring 0 0 s = "".
Proof. now destruct s. Qed.

(** X2.  A path without any dot has itself as extension and the empty
    file name; when every configured extension contains a dot, as the
    default ones do, [processFile] leaves the router as it is for such a
    path, and does not watch it. *)
Theorem dotless_path_ignored
        (Value : Type) (createPageHandler : Value -> string -> Value)
        (importModule : string -> option (Module Value))
        (sep : ascii) (relative : string -> string -> string)
        (options : FileRouterOptions) (st : State Value)
        (file : string) (kind : RouteKind) :
  Js.countChars (Ascii.eqb ".") file = 0 ->
  Forall (fun e => Js.countChars (Ascii.eqb ".") e <> 0) (extensions options) ->
  getFileExtension file = file /\
  getFileName sep file = "" /\
  processFile Value createPageHandler importModule sep relative
              options st file kind = st.
Proof.
  intros Hfile Hexts.
  assert (Hext : getFileExtension file = file).
  { unfold getFileExtension, Js.lastIndexOf.
    now rewrite (lastIndex_none "." file Hfile). }
  split; [exact Hext|]. split.
  - unfold getFileName.
    set (baseName := Js.substring1 _ file).
    assert (Hb : Js.countChars (Ascii.eqb ".") baseName = 0).
    { unfold baseName, Js.substring1.
      pose proof (countChars_drop_le (Ascii.eqb ".")
                    (Js.clampIndex (Js.lastIndexOf sep file + 1) file) file).
      lia. }
    unfold Js.lastIndexOf. rewrite (lastIndex_none "." baseName Hb).
    unfold Js.substring2, Js.clampIndex. simpl. apply substring_0_0.
  - unfold processFile. rewrite Hext.
    assert (E : existsb (String.eqb file) (extensions options) = false).
    { clear Hext. induction Hexts as [|e l He _ IH]; [reflexivity|].
      simpl. rewrite IH. destruct (String.eqb_spec file e) as [->|]; [|reflexivity].
      contradiction. }
    now rewrite E.
Qed.

Lemma dotless_path_ignored_makefile :
  getFileExtension "app/api/Makefile" = "app/api/Makefile" /\
  processFile nat (fun v _ => v) (fun _ => None) "/" (fun _ f => f)
              (mkOptions "./app/(pages)" "./app/api"
                         [".ts"; ".tsx"; ".js"; ".jsx"] true true)
              (newState nat) "app/api/Makefile" api
  = newState nat.
Proof.
  assert (Hexts : Forall (fun e => Js.countChars (Ascii.eqb ".") e <> 0)
                         [".ts"; ".tsx"; ".js"; ".jsx"]).
  { repeat constructor; discriminate. }
  destruct (dotless_path_ignored nat (fun v _ => v) (fun _ => None) "/"
              (fun _ f => f)
              (mkOptions "./app/(pages)" "./app/api"
                         [".ts"; ".tsx"; ".js"; ".jsx"] true true)
              (newState nat) "app/api/Makefile" api eq_refl Hexts)
    as (H1 & _ & H3).
  split; [exact H1 | exact H3].
Defined.

End FileNameFacts.

(* ================================================================== *)
(** * Further properties of [convertFilePathToRoute] *)
(* ================================================================== *)

Section ConversionFacts.

Import FileRouter Spec Notions.

Lemma convert_split (p : string) :
  convertFilePathToRoute p = finishRoute (stripSuffixes p).
Proof. reflexivity. Qed.

Lemma posix_cons c s :
  posix (String c s)
  = (if Ascii.eqb c "\" then "/" else String c "") ++ posix s.
Proof.
  unfold posix, Js.replaceAll. cbn [Js.replaceAllFrom].
  rewrite backslash_head. now destruct (Ascii.eqb c "\").
Qed.

Lemma posix_idempotent (p : string) : posix (posix p) = posix p.
Proof.
  induction p as [|c p IH]; [reflexivity|].
  rewrite posix_cons. destruct (Ascii.eqb_spec c "\") as [->|Hc].
  - change ("/" ++ posix p) with (String "/" (posix p)).
    rewrite posix_cons. change (Ascii.eqb "/" "\") with false. now rewrite IH.
  - change (String c "" ++ posix p) with (String c (posix p)).
    rewrite posix_cons.
    destruct (Ascii.eqb_spec c "\") as [E|_]; [contradiction|]. now rewrite IH.
Qed.

(** X3.  A path spelled with backslashes and the same path spelled with
    slashes are converted alike, by the file router and by route-utils. *)
Theorem separators_are_normalised (p : string) :
  convertFilePathToRoute (posix p) = convertFilePathToRoute p /\
  RouteUtils.parseFilePath (posix p) = RouteUtils.parseFilePath p /\
  RouteUtils.filePathToRoute (posix p) = RouteUtils.filePathToRoute p.
Proof.
  assert (Hc : RouteUtils.cleanPath (posix p) = RouteUtils.cleanPath p).
  { unfold RouteUtils.cleanPath. fold (posix p). fold (posix (posix p)).
    now rewrite posix_idempotent. }
  assert (Hp : RouteUtils.parseFilePath (posix p) = RouteUtils.parseFilePath p).
  { unfold RouteUtils.parseFilePath. now rewrite Hc. }
  split; [|split; [exact Hp|]].
  - rewrite !convert_split. unfold stripSuffixes. now rewrite posix_idempotent.
  - unfold RouteUtils.filePathToRoute. now rewrite Hp.
Qed.

Lemma startsWith_head c r : Js.startsWith (String c r) "/" = Ascii.eqb "/" c.
Proof.
  unfold Js.startsWith. cbn [String.prefix].
  destruct (ascii_dec "/" c) as [<-|Hc].
  - now destruct r.
  - destruct (Ascii.eqb_spec "/" c); [contradiction | reflexivity].
Qed.

(** X4.  Every route the file router computes starts with the
    separator; in particular it is never empty. *)
Theorem route_starts_with_separator (p : string) :
  Js.startsWith (convertFilePathToRoute p) "/" = true.
Proof.
  rewrite convert_split. unfold finishRoute. cbv zeta.
  set (route := Js.replaceAll Js.re_group _ _).
  destruct (String.eqb route "page" || String.eqb route "/page"); [reflexivity|].
  set (route' := if Js.startsWith route "/" then route else "/" ++ route).
  assert (H : Js.startsWith route' "/" = true).
  { unfold route'. destruct (Js.startsWith route "/") eqn:E; [exact E|].
    change ("/" ++ route) with (String "/" route). now rewrite startsWith_head. }
  destruct (String.eqb route' "/") eqn:E; [reflexivity|].
  destruct route' as [|c r]; [discriminate|].
  rewrite startsWith_head in H. apply Ascii.eqb_eq in H. subst c.
  cbn [Js.replaceFirst]. unfold Js.re_end at 1. rewrite E.
  now rewrite startsWith_head.
Qed.

Lemma stripSuffixes_tail (dir t : string) (afterExt afterPage afterRoute : string) :
  posix t = t ->
  4 <= String.length t ->
  Js.replaceFirst Js.re_extension (fun _ => "") t = afterExt ->
  5 <= String.length afterExt ->
  Js.replaceFirst (Js.re_end "/page") (fun _ => "") afterExt = afterPage ->
  6 <= String.length afterPage ->
  Js.replaceFirst (Js.re_end "/route") (fun _ => "") afterPage = afterRoute ->
  stripSuffixes (dir ++ t)
  = Js.replaceFirst (Js.re_end "/index") (fun _ => "") (posix dir ++ afterRoute).
Proof.
  intros Ht Hl4 He Hl5 Hp Hl6 Hr. unfold stripSuffixes.
  unfold posix at 1. rewrite replace_backslash_app. fold (posix dir) (posix t).
  rewrite Ht.
  rewrite (replaceFirst_app Js.re_extension (fun _ => "") 4 (posix dir) t
             extension_bounded Hl4), He.
  rewrite (replaceFirst_app (Js.re_end "/page") (fun _ => "") 5 (posix dir)
             afterExt (end_bounded "/page") Hl5), Hp.
  rewrite (replaceFirst_app (Js.re_end "/route") (fun _ => "") 6 (posix dir)
             afterPage (end_bounded "/route") Hl6), Hr.
  reflexivity.
Qed.

(** X5.  The role suffixes are removed one after the other, so a page
    file inside a directory named [route] or [index] loses that
    directory as well: it gets the route of the route file, or index
    file, of the enclosing directory. *)
Theorem page_in_role_directory (dir ext : string) :
  In ext sourceExtensions ->
  convertFilePathToRoute (dir ++ "/route/page." ++ ext)
  = convertFilePathToRoute (dir ++ "/route." ++ ext) /\
  convertFilePathToRoute (dir ++ "/index/page." ++ ext)
  = convertFilePathToRoute (dir ++ "/index." ++ ext).
Proof.
  intros Hext. rewrite !convert_split.
  destruct Hext as [<-|[<-|[<-|[<-|[]]]]]; cbn [String.append]; split.
  all: try (rewrite (stripSuffixes_tail dir _ "/route/page" "/route" "")
              by (reflexivity || (simpl; lia));
            rewrite (stripSuffixes_tail dir _ "/route" "/route" "")
              by (reflexivity || (simpl; lia));
            reflexivity).
  all: rewrite (stripSuffixes_tail dir _ "/index/page" "/index" "/index")
         by (reflexivity || (simpl; lia));
       rewrite (stripSuffixes_tail dir _ "/index" "/index" "/index")
         by (reflexivity || (simpl; lia));
       reflexivity.
Qed.

Lemma page_in_role_directory_users :
  convertFilePathToRoute "users/route/page.tsx" = "/users" /\
  convertFilePathToRoute "users/route.tsx" = "/users".
Proof.
  assert (Hext : In "tsx" sourceExtensions) by (right; left; reflexivity).
  destruct (page_in_role_directory "users" "tsx" Hext) as [H _].
  split; [reflexivity|].
  exact (eq_trans (eq_sym H) eq_refl).
Defined.

End ConversionFacts.

(* ================================================================== *)
(** * Layouts, dynamic flag and parameter names of the file router *)
(* ================================================================== *)

Section RouteInfoFacts.

Import RouteUtils FileRouter Spec Notions.

(** X6.  A layout file [dir/layout.ext] is stored under a key that keeps
    [layout] as its last segment, not under the route of [dir]; the
    entry under that key is the layout just loaded. *)
Theorem layout_key_keeps_file_name
        (Value : Type) (ls : JsMap.t (LayoutInfo Value))
        (file dir ext : string) (module : Module Value) (c : Value) :
  In ext sourceExtensions ->
  module "default" = Some c ->
  exists scope,
    convertFilePathToRoute (dir ++ "/layout." ++ ext) = scope ++ "/layout" /\
    JsMap.get (processLayout Value ls file (dir ++ "/layout." ++ ext) module)
              (scope ++ "/layout")
    = Some (mkLayout Value (scope ++ "/layout") file c).
Proof.
  intros Hext Hm.
  assert (Hkey : exists scope,
             convertFilePathToRoute (dir ++ "/layout." ++ ext) = scope ++ "/layout").
  { destruct Hext as [<-|[<-|[<-|[<-|[]]]]]; cbn [String.append];
      apply convert_keeps_tail;
      unfold inertTail, freeOf; repeat split; try reflexivity; simpl; lia. }
  destruct Hkey as [scope Hkey]. exists scope. split; [exact Hkey|].
  unfold processLayout. rewrite Hm, Hkey. apply get_set_same.
Qed.

Lemma layout_key_keeps_file_name_users :
  exists scope,
    convertFilePathToRoute "users/layout.tsx" = scope ++ "/layout" /\
    JsMap.get (processLayout nat [] "app/users/layout.tsx" "users/layout.tsx"
                             (fun _ => Some 7))
              (scope ++ "/layout")
    = Some (mkLayout nat (scope ++ "/layout") "app/users/layout.tsx" 7).
Proof.
  assert (Hext : In "tsx" sourceExtensions) by (right; left; reflexivity).
  exact (layout_key_keeps_file_name nat [] "app/users/layout.tsx" "users" "tsx"
           (fun _ => Some 7) 7 Hext eq_refl).
Defined.

Lemma prefix_nil s : String.prefix "" s = true.
Proof. now destruct s. Qed.

Lemma includes_char (s : string) (c : ascii) :
  Js.includes s (String c "") = negb (Nat.eqb (Js.countChars (Ascii.eqb c) s) 0).
Proof.
  induction s as [|d s IH]; [reflexivity|].
  cbn [Js.includes Js.countChars String.prefix]. rewrite IH, prefix_nil.
  destruct (ascii_dec c d) as [<-|Hc].
  - now rewrite Ascii.eqb_refl.
  - destruct (Ascii.eqb_spec c d); [contradiction | reflexivity].
Qed.

(** X7.  A route is flagged dynamic exactly when it contains a colon or
    a star, which is exactly when its priority is docked: a route that
    is not dynamic scores 1000 plus 10 for every part of its split, a
    dynamic one at least 100 less. *)
Theorem dynamic_flag_and_priority (r : string) :
  isDynamicRoute r = negb (Nat.eqb (Js.countChars isMarker r) 0) /\
  (isDynamicRoute r = false ->
   calculatePriority r
   = (1000 + 10 * Z.of_nat (List.length (Js.split "/" r)))%Z) /\
  (isDynamicRoute r = true ->
   (calculatePriority r
    <= 900 + 10 * Z.of_nat (List.length (Js.split "/" r)))%Z).
Proof.
  assert (H : isDynamicRoute r = negb (Nat.eqb (Js.countChars isMarker r) 0)).
  { unfold isDynamicRoute. rewrite !includes_char, countChars_marker.
    destruct (Js.countChars (Ascii.eqb ":") r), (Js.countChars (Ascii.eqb "*") r);
      reflexivity. }
  split; [exact H|]. unfold calculatePriority. rewrite H.
  destruct (Nat.eqb_spec (Js.countChars isMarker r) 0) as [E|E]; cbn [negb];
    (split; intros Hd; try discriminate); cbv zeta; lia.
Qed.

Lemma colon_head c x : c <> ":"%char -> Js.re_colon (String c x) = None.
Proof.
  intros H.
  destruct c as [[] [] [] [] [] [] [] []]; try reflexivity.
  exfalso. now apply H.
Qed.

Lemma captures_pass_colon s t :
  Js.countChars (Ascii.eqb ":") s = 0 ->
  Js.capturesFrom Js.re_colon 0 (s ++ t) = Js.capturesFrom Js.re_colon 0 t.
Proof.
  induction s as [|c s IH]; [reflexivity|].
  cbn [Js.countChars]. intros H.
  change (String c s ++ t) with (String c (s ++ t)).
  cbn [Js.capturesFrom].
  destruct (Ascii.eqb_spec ":" c) as [E|E]; [discriminate|].
  rewrite colon_head by congruence. apply IH. simpl in H. lia.
Qed.

Lemma captures_skip m a b :
  Js.capturesFrom m (String.length a) (a ++ b) = Js.capturesFrom m 0 b.
Proof.
  induction a as [|c a IH]; [reflexivity|]. exact IH.
Qed.

Lemma span_stop ok p rest :
  Js.countChars (fun d => negb (ok d)) p = 0 ->
  (rest = "" \/ exists d r, rest = String d r /\ ok d = false) ->
  Js.span ok (p ++ rest) = (p, rest).
Proof.
  intros Hp Hrest. induction p as [|c p IH].
  - destruct Hrest as [->|(d & r & -> & Hd)]; [reflexivity|].
    simpl. now rewrite Hd.
  - cbn [Js.countChars] in Hp.
    change (String c p ++ rest) with (String c (p ++ rest)).
    cbn [Js.span]. destruct (ok c); [|discriminate].
    rewrite IH by (simpl in Hp; lia). reflexivity.
Qed.

(** The text that follows a rendered segment in a joined pattern:
    nothing, or the separator and the rest. *)
Lemma join_render_cons a l :
  Js.join "/" (map renderSegment (a :: l))
  = renderSegment a
    ++ match l with
       | [] => ""
       | _ => "/" ++ Js.join "/" (map renderSegment l)
       end.
Proof.
  destruct l as [|b l]; [simpl; now rewrite string_app_nil_r|].
  change (map renderSegment (a :: b :: l))
    with (renderSegment a :: map renderSegment (b :: l)).
  now rewrite join_cons by discriminate.
Qed.

Lemma plain_slashFree_not p :
  plain p = true -> Js.countChars (fun d => negb (Js.isNot "/" d)) p = 0.
Proof.
  intros H. apply Nat.eqb_eq in H.
  apply countChars_zero_mono with (2 := H).
  intros d Hd. unfold Js.isNot in Hd. rewrite negb_involutive in Hd.
  unfold plainChar. now rewrite Hd.
Qed.

(** X8.  On a canonical pattern, [extractParams] lists the non-empty
    names of the dynamic segments in order and nothing else: the name of
    a catch-all segment is never among the parameters of a route. *)
Theorem extractParams_dynamic_only (segs : list RouteSegment) :
  forallb canonicalSegment segs = true ->
  extractParams (canonicalPattern segs) = dynamicNames segs.
Proof.
  intros H. unfold extractParams, canonicalPattern, Js.captures.
  change ("/" ++ Js.join "/" (map renderSegment segs))
    with (String "/" "" ++ Js.join "/" (map renderSegment segs)).
  rewrite captures_pass_colon by reflexivity.
  induction segs as [|a l IH]; [reflexivity|].
  simpl in H. apply andb_true_iff in H. destruct H as [Ha Hl].
  specialize (IH Hl). rewrite join_render_cons.
  set (tail := match l with [] => "" | _ => "/" ++ Js.join "/" (map renderSegment l) end).
  assert (Htail : Js.capturesFrom Js.re_colon 0 tail = dynamicNames l).
  { unfold tail. destruct l as [|b l]; [reflexivity|].
    change ("/" ++ Js.join "/" (map renderSegment (b :: l)))
      with (String "/" "" ++ Js.join "/" (map renderSegment (b :: l))).
    rewrite captures_pass_colon by reflexivity. exact IH. }
  assert (Hstop : tail = "" \/ exists d r, tail = String d r /\ Js.isNot "/" d = false).
  { unfold tail. destruct l as [|b l]; [now left | right].
    exists "/"%char, (Js.join "/" (map renderSegment (b :: l))). now split. }
  unfold dynamicNames. cbn [flat_map]. fold (dynamicNames l).
  unfold canonicalSegment in Ha. unfold renderSegment.
  destruct (type a) eqn:Ety; destruct (param a) as [p|] eqn:Epar;
    try discriminate; cbn [paramText app].
  - apply andb_true_iff in Ha. destruct Ha as [_ Hp].
    rewrite captures_pass_colon by now apply plain_no. exact Htail.
  - apply andb_true_iff in Ha. destruct Ha as [_ Hp].
    rewrite captures_pass_colon by now apply plain_no. exact Htail.
  - change (":" ++ p) with (String ":" p).
    change (String ":" p ++ tail) with (String ":" (p ++ tail)).
    cbn [Js.capturesFrom]. unfold Js.re_colon at 1.
    rewrite (span_stop (Js.isNot "/") p tail (plain_slashFree_not p Ha) Hstop).
    destruct p as [|c p].
    + cbn [Js.truthy String.append app]. exact Htail.
    + cbn [Js.truthy]. cbn [Nat.add]. rewrite captures_skip, Htail. reflexivity.
  - change ("*" ++ p) with (String "*" "" ++ p). rewrite string_app_assoc.
    rewrite captures_pass_colon by reflexivity.
    rewrite captures_pass_colon by now apply plain_no. exact Htail.
Qed.

Lemma extractParams_dynamic_only_example :
  extractParams "/users/:id/files/*slug" = ["id"].
Proof.
  exact (extractParams_dynamic_only
           [mkSegment static "users" None;
            mkSegment dynamic "[id]" (Some "id");
            mkSegment static "files" None;
            mkSegment wildcard "[...slug]" (Some "slug")] eq_refl).
Defined.

End RouteInfoFacts.

(* ================================================================== *)
(** * Further properties of route-utils *)
(* ================================================================== *)

Section ParserFacts.

Import RouteUtils Spec Notions.

Lemma parseSegment_flags acc t :
  isDynamic acc = existsb isParam (segments acc) ->
  isWildcard acc = existsb isWildcardSegment (segments acc) ->
  isDynamic acc = negb (Nat.eqb (List.length (params acc)) 0) ->
  isDynamic (parseSegment acc t)
  = existsb isParam (segments (parseSegment acc t)) /\
  isWildcard (parseSegment acc t)
  = existsb isWildcardSegment (segments (parseSegment acc t)) /\
  isDynamic (parseSegment acc t)
  = negb (Nat.eqb (List.length (params (parseSegment acc t))) 0).
Proof.
  intros Hd Hw Hp. unfold parseSegment.
  repeat match goal with |- context [if ?b then _ else _] => destruct b end;
    cbn [segments isDynamic isWildcard params]; rewrite !existsb_app;
    cbn [existsb isParam isWildcardSegment type]; rewrite <- ?Hd, <- ?Hw;
    rewrite ?orb_false_r, ?orb_true_r; repeat split; try reflexivity;
    try exact Hp; rewrite length_app; cbn [List.length];
    now rewrite Nat.add_1_r.
Qed.

Lemma parse_fold_flags tokens acc :
  isDynamic acc = existsb isParam (segments acc) ->
  isWildcard acc = existsb isWildcardSegment (segments acc) ->
  isDynamic acc = negb (Nat.eqb (List.length (params acc)) 0) ->
  isDynamic (fold_left parseSegment tokens acc)
  = existsb isParam (segments (fold_left parseSegment tokens acc)) /\
  isWildcard (fold_left parseSegment tokens acc)
  = existsb isWildcardSegment (segments (fold_left parseSegment tokens acc)) /\
  isDynamic (fold_left parseSegment tokens acc)
  = negb (Nat.eqb (List.length (params (fold_left parseSegment tokens acc))) 0).
Proof.
  revert acc. induction tokens as [|t tokens IH]; intros acc Hd Hw Hp; simpl.
  - now repeat split.
  - destruct (parseSegment_flags acc t Hd Hw Hp) as (Hd' & Hw' & Hp').
    now apply IH.
Qed.

(** X9.  The two flags of a parsed route say what its segments are:
    [isDynamic] holds exactly when some segment is dynamic or catch-all,
    which is exactly when the route has parameters; [isWildcard] holds
    exactly when some segment is catch-all; a wildcard route is always
    dynamic. *)
Theorem parsed_flags (spec : string) :
  isDynamic (parseFilePath spec)
  = existsb isParam (segments (parseFilePath spec)) /\
  isWildcard (parseFilePath spec)
  = existsb isWildcardSegment (segments (parseFilePath spec)) /\
  isDynamic (parseFilePath spec)
  = negb (Nat.eqb (List.length (params (parseFilePath spec))) 0) /\
  (isWildcard (parseFilePath spec) = true ->
   isDynamic (parseFilePath spec) = true).
Proof.
  unfold parseFilePath. cbv zeta.
  set (tokens := filter Js.truthy (Js.split "/" (cleanPath spec))).
  destruct (parse_fold_flags tokens (mkParsed [] [] false false)
              eq_refl eq_refl eq_refl) as (Hd & Hw & Hp).
  split; [exact Hd|]. split; [exact Hw|]. split; [exact Hp|].
  rewrite Hd, Hw. intros H. apply existsb_exists in H.
  destruct H as (seg & Hin & Hseg). apply existsb_exists. exists seg.
  split; [exact Hin|]. unfold isWildcardSegment, isParam in *.
  now destruct (type seg).
Qed.

Lemma end_any_some lits s r :
  Js.re_end_any lits s = Some r -> In s lits.
Proof.
  induction lits as [|lit lits IH]; simpl; [discriminate|].
  unfold Js.re_end. destruct (String.eqb_spec s lit) as [->|].
  - intros _. now left.
  - intros H. right. now apply IH.
Qed.

Lemma replaceFirst_app_none (m : Js.matcher) rep a b :
  (forall c a', m (String c a' ++ b) = None) ->
  Js.replaceFirst m rep (a ++ b) = a ++ Js.replaceFirst m rep b.
Proof.
  intros Hm. induction a as [|c a IH]; [reflexivity|].
  change (String c a ++ b) with (String c (a ++ b)).
  cbn [Js.replaceFirst].
  change (String c (a ++ b)) with (String c a ++ b). rewrite Hm.
  now rewrite IH.
Qed.

Lemma role_suffix_only_at_end role c a :
  In role roleNames ->
  Js.re_role_suffix (String c a ++ "/" ++ role) = None.
Proof.
  intros Hrole.
  destruct (Js.re_role_suffix (String c a ++ "/" ++ role)) as [r|] eqn:E;
    [|reflexivity].
  exfalso. apply end_any_some in E.
  destruct Hrole as [<-|[<-|[<-|[]]]];
    destruct E as [E|[E|[E|[]]]];
    apply (f_equal String.length) in E as Hl;
    cbn [String.append String.length] in Hl;
    rewrite ?string_app_length in Hl; cbn [String.length] in Hl; try lia;
    destruct a as [|d [|e a]]; cbn [String.length] in Hl; try lia;
    cbn [String.append] in E; discriminate E.
Qed.

(** X10.  The page, route and layout files of a directory, with any of
    the four extensions, are cleaned to the directory itself: they all
    parse to the same segments and give the same route. *)
Theorem role_files_share_a_route
        (dir role1 ext1 role2 ext2 : string) :
  In role1 roleNames -> In ext1 sourceExtensions ->
  In role2 roleNames -> In ext2 sourceExtensions ->
  cleanPath (dir ++ "/" ++ role1 ++ "." ++ ext1) = posix dir /\
  parseFilePath (dir ++ "/" ++ role1 ++ "." ++ ext1)
  = parseFilePath (dir ++ "/" ++ role2 ++ "." ++ ext2) /\
  filePathToRoute (dir ++ "/" ++ role1 ++ "." ++ ext1)
  = filePathToRoute (dir ++ "/" ++ role2 ++ "." ++ ext2).
Proof.
  assert (Hclean : forall role ext,
             In role roleNames -> In ext sourceExtensions ->
             cleanPath (dir ++ "/" ++ role ++ "." ++ ext) = posix dir).
  { intros role ext Hrole Hext. unfold cleanPath.
    rewrite replace_backslash_app. fold (posix dir).
    assert (Ht : Js.replaceAll Js.re_backslash (fun _ => "/")
                               ("/" ++ role ++ "." ++ ext)
                 = "/" ++ role ++ "." ++ ext).
    { destruct Hrole as [<-|[<-|[<-|[]]]];
        destruct Hext as [<-|[<-|[<-|[<-|[]]]]]; reflexivity. }
    rewrite Ht.
    rewrite (replaceFirst_app Js.re_extension (fun _ => "") 4 (posix dir) _
               extension_bounded).
    2:{ destruct Hrole as [<-|[<-|[<-|[]]]];
          destruct Hext as [<-|[<-|[<-|[<-|[]]]]]; simpl; lia. }
    assert (He : Js.replaceFirst Js.re_extension (fun _ => "")
                                 ("/" ++ role ++ "." ++ ext)
                 = "/" ++ role).
    { destruct Hrole as [<-|[<-|[<-|[]]]];
        destruct Hext as [<-|[<-|[<-|[<-|[]]]]]; reflexivity. }
    rewrite He.
    rewrite replaceFirst_app_none
      by (intros c a'; now apply role_suffix_only_at_end).
    assert (Hr : Js.replaceFirst Js.re_role_suffix (fun _ => "") ("/" ++ role) = "").
    { destruct Hrole as [<-|[<-|[<-|[]]]]; reflexivity. }
    rewrite Hr. apply string_app_nil_r. }
  intros Hr1 He1 Hr2 He2.
  assert (Hp : parseFilePath (dir ++ "/" ++ role1 ++ "." ++ ext1)
               = parseFilePath (dir ++ "/" ++ role2 ++ "." ++ ext2)).
  { unfold parseFilePath. now rewrite !Hclean. }
  split; [now apply Hclean|]. split; [exact Hp|].
  unfold filePathToRoute. now rewrite Hp.
Qed.

Lemma role_files_share_a_route_users :
  filePathToRoute "users/[id]/page.tsx" = filePathToRoute "users/[id]/route.ts".
Proof.
  assert (R1 : In "page" roleNames) by (left; reflexivity).
  assert (R2 : In "route" roleNames) by (right; left; reflexivity).
  assert (E1 : In "tsx" sourceExtensions) by (right; left; reflexivity).
  assert (E2 : In "ts" sourceExtensions) by (left; reflexivity).
  destruct (role_files_share_a_route "users/[id]" "page" "tsx" "route" "ts"
              R1 E1 R2 E2) as (_ & _ & H).
  exact H.
Defined.

Lemma endsWith_needs_slash b v :
  slashFree b -> Js.endsWith b (String "/" v) = false.
Proof.
  unfold slashFree. induction b as [|c b IH]; [reflexivity|].
  cbn [Js.countChars Js.endsWith]. intros H.
  destruct (Ascii.eqb_spec "/" c) as [E|E]; [discriminate|].
  rewrite IH by (simpl in H; lia).
  destruct (String.eqb_spec (String c b) (String "/" v)) as [E'|]; [|reflexivity].
  inversion E'. congruence.
Qed.

Lemma eqb_with_slash pre b v :
  slashFree v -> String.eqb (pre ++ "/" ++ b) v = false.
Proof.
  intros Hv. destruct (String.eqb_spec (pre ++ "/" ++ b) v) as [E|]; [|reflexivity].
  apply (f_equal (Js.countChars (Ascii.eqb "/"))) in E.
  rewrite countChars_app in E. unfold slashFree in Hv.
  cbn [String.append Js.countChars] in E.
  change (Ascii.eqb "/" "/") with true in E. cbv iota in E. lia.
Qed.

Lemma endsWith_last_component dir b v :
  slashFree b -> slashFree v ->
  Js.endsWith (dir ++ "/" ++ b) ("/" ++ v) = String.eqb b v.
Proof.
  intros Hb Hv. induction dir as [|c dir IH].
  - change ("" ++ "/" ++ b) with (String "/" b).
    change ("/" ++ v) with (String "/" v).
    cbn [Js.endsWith]. rewrite (endsWith_needs_slash b v Hb), orb_false_r.
    cbn [String.eqb]. now rewrite Ascii.eqb_refl.
  - change (String c dir ++ "/" ++ b) with (String c (dir ++ "/" ++ b)).
    cbn [Js.endsWith]. rewrite IH.
    change ("/" ++ v) with (String "/" v).
    destruct (String.eqb_spec (String c (dir ++ "/" ++ b)) (String "/" v))
      as [E|]; [|reflexivity].
    exfalso. inversion E as [[Ec Ev]].
    apply (f_equal (Js.countChars (Ascii.eqb "/"))) in Ev.
    rewrite countChars_app in Ev. unfold slashFree in Hv.
    cbn [String.append Js.countChars] in Ev.
    change (Ascii.eqb "/" "/") with true in Ev. cbv iota in Ev. lia.
Qed.

Lemma countChars_strip_le ok lits s :
  Js.countChars ok (Js.replaceFirst (Js.re_end_any lits) (fun _ => "") s)
  <= Js.countChars ok s.
Proof.
  induction s as [|c s IH]; cbn [Js.replaceFirst].
  - destruct (Js.re_end_any lits "") as [[capt n]|]; [|simpl; lia].
    cbn [String.append]. apply countChars_drop_le.
  - destruct (Js.re_end_any lits (String c s)) as [[capt n]|].
    + cbn [String.append]. apply countChars_drop_le.
    + cbn [Js.countChars]. lia.
Qed.

Lemma extension_needs_no_slash x :
  1 <= Js.countChars (Ascii.eqb "/") x -> Js.re_extension x = None.
Proof.
  intros H. destruct (Js.re_extension x) as [r|] eqn:E; [|reflexivity].
  exfalso. apply end_any_some in E.
  destruct E as [E|[E|[E|[E|[]]]]]; subst x; simpl in H; lia.
Qed.

Lemma strip_extension_last_component dir file :
  Js.replaceFirst Js.re_extension (fun _ => "") (dir ++ "/" ++ file)
  = dir ++ "/" ++ Js.replaceFirst Js.re_extension (fun _ => "") file.
Proof.
  assert (Hin : forall c a', Js.re_extension (String c a' ++ "/" ++ file) = None).
  { intros c a'. apply extension_needs_no_slash.
    rewrite countChars_app. cbn [String.append Js.countChars].
    change (Ascii.eqb "/" "/") with true. cbv iota. lia. }
  rewrite (replaceFirst_app_none Js.re_extension (fun _ => "") dir
             ("/" ++ file) Hin).
  reflexivity.
Qed.

Lemma find_ext_in {A : Type} (f g : A -> bool) (l : list A) :
  (forall x, In x l -> f x = g x) -> find f l = find g l.
Proof.
  induction l as [|x l IH]; intros H; [reflexivity|].
  simpl. rewrite (H x) by now left.
  destruct (g x); [reflexivity|]. apply IH. intros y Hy. apply H. now right.
Qed.

(** X11.  The type of a file depends on the last component of its path
    only: whatever directories precede a name without separator,
    [getFileType] answers as for the name alone. *)
Theorem file_type_of_last_component (dir file : string) :
  slashFree file ->
  getFileType (dir ++ "/" ++ file) = getFileType file.
Proof.
  intros Hfile. unfold getFileType. cbv zeta.
  rewrite strip_extension_last_component.
  set (b := Js.replaceFirst Js.re_extension (fun _ => "") file).
  assert (Hb : slashFree b).
  { unfold slashFree in *. unfold b, Js.re_extension.
    pose proof (countChars_strip_le (Ascii.eqb "/")
                  [".ts"; ".tsx"; ".js"; ".jsx"] file). lia. }
  f_equal. apply find_ext_in. intros [k v] Hin. unfold isConvention. cbn [snd].
  assert (Hv : slashFree v).
  { unfold FILE_CONVENTIONS in Hin. simpl in Hin.
    repeat (destruct Hin as [Hin|Hin]; [inversion Hin; reflexivity|]).
    destruct Hin. }
  rewrite (eqb_with_slash dir b v Hv), (endsWith_last_component dir b v Hb Hv).
  change ("/" ++ v) with (String "/" v).
  now rewrite (endsWith_needs_slash b v Hb), orb_false_r.
Qed.

Lemma file_type_of_last_component_page :
  getFileType "app/(pages)/users/page.tsx" = Some "PAGE".
Proof.
  exact (eq_trans
           (file_type_of_last_component "app/(pages)/users" "page.tsx" eq_refl)
           eq_refl).
Defined.

(** X12.  Of the two middleware file names the file router processes,
    route-utils knows one: in any directory and with any of the four
    extensions, [_middleware] is of type [MIDDLEWARE] and [middleware]
    is of no type. *)
Theorem file_type_of_middleware (dir ext : string) :
  In ext sourceExtensions ->
  getFileType (dir ++ "/" ++ "_middleware." ++ ext) = Some "MIDDLEWARE" /\
  getFileType (dir ++ "/" ++ "middleware." ++ ext) = None.
Proof.
  intros Hext.
  destruct Hext as [<-|[<-|[<-|[<-|[]]]]]; cbn [String.append]; split;
    match goal with
    | |- getFileType (dir ++ String "/" ?f) = _ =>
        change (dir ++ String "/" f) with (dir ++ "/" ++ f);
        rewrite (file_type_of_last_component dir f eq_refl); reflexivity
    end.
Qed.

Lemma file_type_of_middleware_api :
  getFileType "api/_middleware.ts" = Some "MIDDLEWARE" /\
  getFileType "api/middleware.ts" = None.
Proof.
  assert (Hext : In "ts" sourceExtensions) by (left; reflexivity).
  exact (file_type_of_middleware "api" "ts" Hext).
Defined.

End ParserFacts.

(* ================================================================== *)
(** * Further properties of [RouteMatcher] *)
(* ================================================================== *)

Section MatcherFacts.

Import RouteUtils Spec Notions.

Lemma addRoute_entry (this : RouteMatcher) (path : string) :
  addRoute this path = JsMap.set this path (entryOf path).
Proof. reflexivity. Qed.

Lemma slash_head c x :
  Js.re_slash (String c x)
  = if Ascii.eqb c "/" then Some (EmptyString, 1) else None.
Proof. destruct c as [[] [] [] [] [] [] [] []]; reflexivity. Qed.

Lemma escape_cons c s :
  escapeSlashes (String c s)
  = (if Ascii.eqb c "/" then "\/" else String c "") ++ escapeSlashes s.
Proof.
  unfold escapeSlashes, Js.replaceAll. cbn [Js.replaceAllFrom].
  rewrite slash_head. now destruct (Ascii.eqb c "/").
Qed.

Lemma escape_app a b :
  escapeSlashes (a ++ b) = escapeSlashes a ++ escapeSlashes b.
Proof.
  induction a as [|c a IH]; [reflexivity|].
  change (String c a ++ b) with (String c (a ++ b)).
  rewrite !escape_cons, IH. now rewrite string_app_assoc.
Qed.

Lemma escape_slashFree s : slashFree s -> escapeSlashes s = s.
Proof.
  unfold slashFree. induction s as [|c s IH]; [reflexivity|].
  cbn [Js.countChars]. rewrite escape_cons, (Ascii.eqb_sym c "/").
  destruct (Ascii.eqb "/" c); [discriminate|].
  intros H. now rewrite IH.
Qed.

Lemma escape_count (c : ascii) s :
  Ascii.eqb c "/" = false -> Ascii.eqb c "\" = false ->
  Js.countChars (Ascii.eqb c) (escapeSlashes s) = Js.countChars (Ascii.eqb c) s.
Proof.
  intros H1 H2. induction s as [|d s IH]; [reflexivity|].
  rewrite escape_cons. destruct (Ascii.eqb_spec d "/") as [->|Hd].
  - rewrite countChars_app. cbn [Js.countChars]. rewrite H1, H2, IH. reflexivity.
  - rewrite countChars_app. cbn [Js.countChars]. rewrite IH. lia.
Qed.

Lemma star_head c x : c <> "*"%char -> Js.re_star (String c x) = None.
Proof.
  intros H.
  destruct c as [[] [] [] [] [] [] [] []]; try reflexivity.
  exfalso. now apply H.
Qed.

(** A global replace passes over characters its expression cannot
    start with. *)
Lemma replace_pass (m : Js.matcher) rep (first : ascii) s t :
  (forall c x, c <> first -> m (String c x) = None) ->
  Js.countChars (Ascii.eqb first) s = 0 ->
  Js.replaceAllFrom m rep 0 (s ++ t) = s ++ Js.replaceAllFrom m rep 0 t /\
  Js.capturesFrom m 0 (s ++ t) = Js.capturesFrom m 0 t.
Proof.
  intros Hm. induction s as [|c s IH]; [now split|].
  cbn [Js.countChars]. intros H.
  destruct (Ascii.eqb_spec first c) as [E|E]; [discriminate|].
  destruct IH as [IH1 IH2]; [simpl in H; lia|].
  change (String c s ++ t) with (String c (s ++ t)).
  cbn [Js.replaceAllFrom Js.capturesFrom].
  rewrite Hm by congruence. rewrite IH1, IH2. now split.
Qed.

Lemma replace_skip m rep a b :
  Js.replaceAllFrom m rep (String.length a) (a ++ b)
  = Js.replaceAllFrom m rep 0 b.
Proof. induction a as [|c a IH]; [reflexivity | exact IH]. Qed.

Lemma literal_no (c : ascii) s :
  literalChar c = false -> literal s -> Js.countChars (Ascii.eqb c) s = 0.
Proof.
  intros Hc Hs. apply countChars_zero_mono with (2 := Hs).
  intros d Hd. apply Ascii.eqb_eq in Hd. subst d. now rewrite Hc.
Qed.

Lemma literal_app a b : literal a -> literal b -> literal (a ++ b).
Proof. unfold literal. intros Ha Hb. rewrite countChars_app. lia. Qed.

Lemma literal_no_syntax s : literal s -> Js.countChars isSyntaxChar s = 0.
Proof.
  intros Hs. apply countChars_zero_mono with (2 := Hs).
  intros d Hd. unfold literalChar. now rewrite Hd.
Qed.

(** The expression compiled from escaped literal text is that text,
    character by character. *)
Lemma compile_char c x :
  isSyntaxChar c = false ->
  compileBody 0 (String c x) = option_map (cons (Lit c)) (compileBody 0 x).
Proof.
  intros Hs.
  destruct c as [[] [] [] [] [] [] [] []];
    try discriminate Hs; reflexivity.
Qed.

Lemma compile_literals s rest :
  Js.countChars isSyntaxChar s = 0 ->
  compileBody 0 (escapeSlashes s ++ rest)
  = option_map (app (literals s)) (compileBody 0 rest).
Proof.
  induction s as [|c s IH]; cbn [Js.countChars]; intros H.
  - cbn. now destruct (compileBody 0 rest).
  - destruct (isSyntaxChar c) eqn:Hc; [discriminate|].
    rewrite escape_cons. destruct (Ascii.eqb_spec c "/") as [->|Hne].
    + change (("\/" ++ escapeSlashes s) ++ rest)
        with (String "\" (String "/" (escapeSlashes s ++ rest))).
      cbn [compileBody String.eqb Ascii.eqb Bool.eqb String.prefix].
      change (String.prefix "\/" (String "\" (String "/" (escapeSlashes s ++ rest))))
        with (String.prefix "" (escapeSlashes s ++ rest)).
      rewrite prefix_nil, IH by exact H.
      unfold literals. cbn [list_ascii_of_string map].
      now destruct (compileBody 0 rest).
    + change ((String c "" ++ escapeSlashes s) ++ rest)
        with (String c (escapeSlashes s ++ rest)).
      rewrite compile_char by assumption. rewrite IH by exact H.
      unfold literals. cbn [list_ascii_of_string map].
      now destruct (compileBody 0 rest).
Qed.

Lemma match_literals s ps q :
  matchPieces (literals s ++ ps) (s ++ q) = matchPieces ps q.
Proof.
  induction s as [|c s IH]; [reflexivity|].
  unfold literals. cbn [list_ascii_of_string map app String.append matchPieces].
  rewrite Ascii.eqb_refl. exact IH.
Qed.

Lemma match_literals_exact s q :
  matchPieces (literals s) q
  = if String.eqb q s then Some [] else None.
Proof.
  revert q. induction s as [|c s IH]; intros [|d q]; try reflexivity.
  unfold literals. cbn [list_ascii_of_string map matchPieces String.eqb].
  rewrite (Ascii.eqb_sym d c).
  destruct (Ascii.eqb c d); [apply IH | reflexivity].
Qed.

(** The greedy group before the end of the expression takes the whole
    remainder or fails. *)
Lemma greedy_to_end ok taken s :
  greedy ok (matchPieces []) taken s
  = if Nat.eqb (Js.countChars (fun d => negb (ok d)) s) 0
    then Some [taken ++ s] else None.
Proof.
  revert taken. induction s as [|c s IH]; intros taken.
  - cbn. now rewrite string_app_nil_r.
  - cbn [greedy Js.countChars matchPieces option_map].
    destruct (ok c); cbn [negb Nat.add]; [|reflexivity].
    rewrite IH.
    destruct (Nat.eqb (Js.countChars (fun d => negb (ok d)) s) 0); [|reflexivity].
    now rewrite string_app_assoc.
Qed.

(** The greedy group before a character it cannot take stops there when
    the rest of the expression accepts what follows. *)
Lemma greedy_take ok k taken v r caps :
  Js.countChars (fun d => negb (ok d)) v = 0 ->
  (r = "" \/ exists d r', r = String d r' /\ ok d = false) ->
  k r = Some caps ->
  greedy ok k taken (v ++ r) = Some ((taken ++ v) :: caps).
Proof.
  intros Hv Hr Hk. revert taken. induction v as [|c v IH]; intros taken.
  - rewrite string_app_nil_r. cbn [String.append].
    destruct Hr as [->|(d & r' & -> & Hd)]; cbn [greedy]; rewrite ?Hd, Hk; reflexivity.
  - cbn [Js.countChars] in Hv.
    change (String c v ++ r) with (String c (v ++ r)). cbn [greedy].
    destruct (ok c); [|discriminate].
    rewrite IH by (simpl in Hv; lia). now rewrite string_app_assoc.
Qed.

Lemma includes_needs_head s h x :
  Js.countChars (Ascii.eqb h) s = 0 -> Js.includes s (String h x) = false.
Proof.
  induction s as [|c s IH]; [reflexivity|].
  cbn [Js.countChars Js.includes String.prefix]. intros H.
  destruct (ascii_dec h c) as [<-|Hc].
  - rewrite Ascii.eqb_refl in H. discriminate.
  - apply IH. destruct (Ascii.eqb h c); [discriminate | exact H].
Qed.

(** What the two later replacements of [addRoute] do with one dynamic
    segment: it becomes the segment group, and its name is everything up
    to the next slash. *)
Lemma replace_one_parameter E run rest :
  Js.countChars (Ascii.eqb ":") E = 0 ->
  Js.countChars (Ascii.eqb "*") E = 0 ->
  Js.truthy run = true ->
  Js.countChars (fun d => negb (Js.isNot "/" d)) run = 0 ->
  (rest = "" \/ exists d r, rest = String d r /\ Js.isNot "/" d = false) ->
  Js.countChars (Ascii.eqb ":") rest = 0 ->
  Js.countChars (Ascii.eqb "*") rest = 0 ->
  let escaped := E ++ String ":" (run ++ rest) in
  let afterColon := E ++ segmentGroupText ++ rest in
  Js.replaceAll Js.re_colon (fun _ => segmentGroupText) escaped = afterColon /\
  Js.captures Js.re_colon escaped = [run] /\
  Js.replaceAll Js.re_star (fun _ => restGroupText) afterColon = afterColon /\
  Js.captures Js.re_star afterColon = [].
Proof.
  intros HcE HsE Hrun Hfree Hrest Hcr Hsr escaped afterColon.
  unfold Js.replaceAll, Js.captures.
  destruct (replace_pass Js.re_colon (fun _ => segmentGroupText) ":"
              E (String ":" (run ++ rest)) colon_head HcE) as [R1 C1].
  destruct (replace_pass Js.re_colon (fun _ => segmentGroupText) ":"
              rest "" colon_head Hcr) as [R2 C2].
  cbn [Js.replaceAllFrom Js.capturesFrom] in R2, C2.
  rewrite !string_app_nil_r in R2. rewrite string_app_nil_r in C2.
  assert (Hm : Js.re_colon (String ":" (run ++ rest))
               = Some (run, S (String.length run))).
  { unfold Js.re_colon. rewrite (span_stop _ run rest Hfree Hrest).
    destruct run; [discriminate | reflexivity]. }
  unfold escaped. rewrite R1, C1.
  cbn [Js.replaceAllFrom Js.capturesFrom]. rewrite Hm.
  rewrite replace_skip, captures_skip, R2, C2.
  split; [reflexivity|]. split; [reflexivity|].
  assert (Hs : Js.countChars (Ascii.eqb "*") afterColon = 0).
  { unfold afterColon. rewrite !countChars_app, HsE, Hsr. reflexivity. }
  destruct (replace_pass Js.re_star (fun _ => restGroupText) "*"
              afterColon "" star_head Hs) as [R3 C3].
  cbn [Js.replaceAllFrom Js.capturesFrom] in R3, C3.
  rewrite !string_app_nil_r in R3. rewrite string_app_nil_r in C3. now split.
Qed.

Lemma escape_literal_counts base :
  literal base ->
  Js.countChars (Ascii.eqb ":") (escapeSlashes base ++ "\/") = 0 /\
  Js.countChars (Ascii.eqb "*") (escapeSlashes base ++ "\/") = 0.
Proof.
  intros Hb. rewrite !countChars_app, !escape_count by reflexivity.
  rewrite (literal_no ":" base eq_refl Hb), (literal_no "*" base eq_refl Hb).
  now split.
Qed.

Lemma plain_not_empty_truthy p : p <> "" -> Js.truthy p = true.
Proof. destruct p; [congruence | reflexivity]. Qed.

(** The entry of a route that ends with a dynamic segment. *)
Lemma entry_dynamic_last base p :
  literal base -> plain p = true -> p <> "" ->
  entryOf (base ++ "/:" ++ p)
  = mkEntry ("^" ++ (escapeSlashes base ++ "\/" ++ segmentGroupText) ++ "$") [p].
Proof.
  intros Hb Hp Hne. unfold entryOf. cbv zeta.
  assert (Hesc : escapeSlashes (base ++ "/:" ++ p)
                 = (escapeSlashes base ++ "\/") ++ String ":" (p ++ "")).
  { rewrite escape_app. change ("/:" ++ p) with (String "/" (String ":" p)).
    rewrite !escape_cons. change (Ascii.eqb "/" "/") with true.
    change (Ascii.eqb ":" "/") with false. cbv iota.
    rewrite (escape_slashFree p (plain_no "/" p eq_refl Hp)).
    rewrite string_app_nil_r. now rewrite !string_app_assoc. }
  destruct (escape_literal_counts base Hb) as [Hc Hs].
  destruct (replace_one_parameter (escapeSlashes base ++ "\/") p ""
              Hc Hs (plain_not_empty_truthy p Hne) (plain_slashFree_not p Hp)
              (or_introl eq_refl) eq_refl eq_refl) as (R1 & C1 & R2 & C2).
  rewrite Hesc, R1, C1, R2, C2. rewrite string_app_nil_r.
  now rewrite !string_app_assoc.
Qed.

(** The entry of a route with a dynamic segment before further literal
    segments: the backslash that escapes the next slash goes into the
    parameter name. *)
Lemma entry_dynamic_inner base p tl :
  literal base -> plain p = true -> p <> "" -> literal tl ->
  entryOf (base ++ "/:" ++ p ++ "/" ++ tl)
  = mkEntry ("^" ++ (escapeSlashes base ++ "\/" ++ segmentGroupText
                     ++ "/" ++ escapeSlashes tl) ++ "$")
            [p ++ "\"].
Proof.
  intros Hb Hp Hne Htl. unfold entryOf. cbv zeta.
  assert (Hesc : escapeSlashes (base ++ "/:" ++ p ++ "/" ++ tl)
                 = (escapeSlashes base ++ "\/")
                   ++ String ":" ((p ++ "\") ++ ("/" ++ escapeSlashes tl))).
  { rewrite escape_app. change ("/:" ++ p ++ "/" ++ tl)
      with (String "/" (String ":" (p ++ "/" ++ tl))).
    rewrite !escape_cons. change (Ascii.eqb "/" "/") with true.
    change (Ascii.eqb ":" "/") with false. cbv iota.
    rewrite escape_app. rewrite (escape_slashFree p (plain_no "/" p eq_refl Hp)).
    change ("/" ++ tl) with (String "/" tl). rewrite escape_cons.
    change (Ascii.eqb "/" "/") with true. cbv iota.
    rewrite !string_app_assoc. reflexivity. }
  destruct (escape_literal_counts base Hb) as [Hc Hs].
  assert (Hrun : Js.countChars (fun d => negb (Js.isNot "/" d)) (p ++ "\") = 0).
  { rewrite countChars_app, (plain_slashFree_not p Hp). reflexivity. }
  assert (Htruthy : Js.truthy (p ++ "\") = true) by (now destruct p).
  assert (Hrest : "/" ++ escapeSlashes tl = ""
                  \/ exists d r, "/" ++ escapeSlashes tl = String d r
                                 /\ Js.isNot "/" d = false).
  { right. exists "/"%char, (escapeSlashes tl). now split. }
  assert (Hcr : Js.countChars (Ascii.eqb ":") ("/" ++ escapeSlashes tl) = 0).
  { cbn [String.append Js.countChars].
    rewrite escape_count by reflexivity. now rewrite (literal_no ":" tl eq_refl Htl). }
  assert (Hsr : Js.countChars (Ascii.eqb "*") ("/" ++ escapeSlashes tl) = 0).
  { cbn [String.append Js.countChars].
    rewrite escape_count by reflexivity. now rewrite (literal_no "*" tl eq_refl Htl). }
  destruct (replace_one_parameter (escapeSlashes base ++ "\/") (p ++ "\")
              ("/" ++ escapeSlashes tl) Hc Hs Htruthy Hrun Hrest Hcr Hsr)
    as (R1 & C1 & R2 & C2).
  rewrite Hesc, R1, C1, R2, C2.
  now rewrite !string_app_assoc.
Qed.

Lemma prefix_app_self a x : String.prefix a (a ++ x) = true.
Proof.
  induction a as [|c a IH]; [apply prefix_nil|].
  cbn [String.append String.prefix]. now destruct (ascii_dec c c).
Qed.

Lemma compile_escaped_slash x :
  compileBody 0 ("\/" ++ x) = option_map (cons (Lit "/")) (compileBody 0 x).
Proof.
  change ("\/" ++ x) with (String "\" (String "/" x)).
  cbn [compileBody].
  change (String.eqb (String "\" (String "/" x)) "$") with false.
  change (String "\" (String "/" x)) with ("\/" ++ x).
  now rewrite prefix_app_self.
Qed.

Lemma compile_segment_group x :
  compileBody 0 (segmentGroupText ++ x)
  = option_map (cons GroupSegment) (compileBody 0 x).
Proof.
  unfold segmentGroupText at 1.
  change ("([^/]+)" ++ x)
    with (String "(" (String "[" (String "^" (String "/" (String "]"
            (String "+" (String ")" x))))))).
  cbn [compileBody].
  change (String.eqb (String "(" (String "[" (String "^" (String "/" (String "]"
            (String "+" (String ")" x))))))) "$") with false.
  change (String.prefix "\/" (String "(" (String "[" (String "^" (String "/"
            (String "]" (String "+" (String ")" x)))))))) with false.
  change (String "(" (String "[" (String "^" (String "/" (String "]"
            (String "+" (String ")" x)))))))
    with (segmentGroupText ++ x).
  now rewrite prefix_app_self.
Qed.

Lemma compile_anchored body :
  compileRegExp ("^" ++ body) = compileBody 0 body.
Proof. reflexivity. Qed.

Lemma compile_dynamic_last base :
  literal base ->
  compileRegExp ("^" ++ (escapeSlashes base ++ "\/" ++ segmentGroupText) ++ "$")
  = Some (literals base ++ [Lit "/"; GroupSegment])%list.
Proof.
  intros Hb. rewrite compile_anchored, !string_app_assoc.
  rewrite compile_literals by now apply literal_no_syntax.
  rewrite compile_escaped_slash, compile_segment_group. reflexivity.
Qed.

Lemma compile_dynamic_inner base tl :
  literal base -> literal tl ->
  compileRegExp ("^" ++ (escapeSlashes base ++ "\/" ++ segmentGroupText
                         ++ "/" ++ escapeSlashes tl) ++ "$")
  = Some (literals base ++ [Lit "/"; GroupSegment; Lit "/"] ++ literals tl)%list.
Proof.
  intros Hb Htl. rewrite compile_anchored, !string_app_assoc.
  rewrite compile_literals by now apply literal_no_syntax.
  rewrite compile_escaped_slash, compile_segment_group.
  change ("/" ++ escapeSlashes tl ++ "$")
    with (String "/" (escapeSlashes tl ++ "$")).
  rewrite compile_char by reflexivity.
  rewrite compile_literals by now apply literal_no_syntax.
  cbn. now rewrite app_nil_r.
Qed.

Lemma compile_static s :
  literal s ->
  compileRegExp ("^" ++ escapeSlashes s ++ "$") = Some (literals s).
Proof.
  intros Hs. rewrite compile_anchored.
  rewrite compile_literals by now apply literal_no_syntax.
  cbn. now rewrite app_nil_r.
Qed.

(** The entry of a route without parameters. *)
Lemma entry_static s :
  literal s -> entryOf s = mkEntry ("^" ++ escapeSlashes s ++ "$") [].
Proof.
  intros Hs. unfold entryOf. cbv zeta.
  assert (Hc : Js.countChars (Ascii.eqb ":") (escapeSlashes s) = 0).
  { rewrite escape_count by reflexivity. now apply literal_no. }
  assert (Hst : Js.countChars (Ascii.eqb "*") (escapeSlashes s) = 0).
  { rewrite escape_count by reflexivity. now apply literal_no. }
  destruct (replace_pass Js.re_colon (fun _ => segmentGroupText) ":"
              (escapeSlashes s) "" colon_head Hc) as [R1 C1].
  destruct (replace_pass Js.re_star (fun _ => restGroupText) "*"
              (escapeSlashes s) "" star_head Hst) as [R2 C2].
  cbn [Js.replaceAllFrom Js.capturesFrom] in R1, C1, R2, C2.
  rewrite !string_app_nil_r in R1, R2.
  rewrite string_app_nil_r in C1, C2.
  unfold Js.replaceAll, Js.captures. rewrite R1, C1, R2, C2. reflexivity.
Qed.

End MatcherFacts.

(** * The matcher on routes with one parameter *)

Section MatcherClaimsMore.

Import RouteUtils Spec Notions.

Lemma slashFree_head v :
  v <> "" -> isSlashFree v = true ->
  exists d v', v = String d v' /\ Js.isNot "/" d = true /\
               Js.countChars (fun c => negb (Js.isNot "/" c)) v' = 0.
Proof.
  intros Hne Hv. destruct v as [|d v']; [congruence|].
  exists d, v'. apply Nat.eqb_eq in Hv. cbn [Js.countChars] in Hv.
  destruct (Js.isNot "/" d); cbn [negb] in Hv; cbv iota in Hv;
    [repeat split; lia | lia].
Qed.

Lemma set_new {V} (m : JsMap.t V) k (v : V) :
  JsMap.get m k = None -> JsMap.set m k v = (m ++ [(k, v)])%list.
Proof.
  induction m as [|[k' v'] m IH]; [reflexivity|].
  cbn [JsMap.get JsMap.set app].
  destruct (String.eqb k' k); [discriminate|]. intros H. now rewrite IH.
Qed.

Lemma matchRoute_first (m : RouteMatcher) e path route ps :
  matchRoute m path = Matched route ps ->
  matchRoute (m ++ [e])%list path = Matched route ps.
Proof.
  induction m as [|[k entry] m IH]; [discriminate|].
  cbn [matchRoute app].
  destruct (compileRegExp (pattern entry)) as [pieces|]; [|discriminate].
  destruct (matchPieces pieces path); [tauto | exact IH].
Qed.

Lemma no_star_in_dynamic_last base p :
  literal base -> plain p = true ->
  Js.countChars (Ascii.eqb "*") (base ++ "/:" ++ p) = 0.
Proof.
  intros Hb Hp. rewrite countChars_app.
  rewrite (literal_no "*" base eq_refl Hb).
  change ("/:" ++ p) with (String "/" (String ":" p)).
  cbn [Js.countChars].
  change (Ascii.eqb "*" "/") with false. change (Ascii.eqb "*" ":") with false.
  cbv iota. rewrite (plain_no "*" p eq_refl Hp). reflexivity.
Qed.

(** X13.  A route that ends with a dynamic segment, alone in the
    matcher, answers a path made of the same literal part followed by one
    non-empty segment without a separator: the parameter takes the text
    of that segment.  The parameter name is an ordinary property name
    (the assignment to [__proto__] stores no own property). *)
Theorem dynamic_last_segment_binds (base p v : string) :
  literal base -> plain p = true -> p <> "" -> p <> "__proto__" ->
  v <> "" -> isSlashFree v = true ->
  matchRoute (addRoute emptyMatcher (base ++ "/:" ++ p)) (base ++ "/" ++ v)
  = Matched (base ++ "/:" ++ p) [(p, PString v)].
Proof.
  intros Hb Hp Hne _ Hv Hsf.
  rewrite addRoute_entry. unfold emptyMatcher. cbn [JsMap.set matchRoute].
  rewrite (entry_dynamic_last base p Hb Hp Hne). cbn [pattern entryParams].
  rewrite (compile_dynamic_last base Hb), match_literals.
  destruct (slashFree_head v Hv Hsf) as (d & v' & -> & Hd & Hv').
  change ("/" ++ String d v') with (String "/" (String d v')).
  cbn [matchPieces]. change (Ascii.eqb "/" "/") with true. cbv iota.
  rewrite Hd, greedy_to_end, Hv'. cbn [Nat.eqb String.append bindParams nth_error].
  pose proof (includes_needs_head _ "*" p
                (no_star_in_dynamic_last base p Hb Hp)) as Hin.
  cbn [String.append] in Hin. rewrite Hin. reflexivity.
Qed.

Lemma dynamic_last_segment_binds_users :
  matchRoute (addRoute emptyMatcher "/users/:id") "/users/42"
  = Matched "/users/:id" [("id", PString "42")].
Proof.
  apply (dynamic_last_segment_binds "/users" "id" "42");
    try reflexivity; discriminate.
Defined.

End MatcherClaimsMore.
